(** * Turing-machine text editor: the buffer engine of [hi.py]

    A shallow embedding of class [TuringEditor] and a verification of its
    tape, head and undo/redo history.

    Python objects are mutated in place, and an exception leaves the object
    in whatever state it had reached.  Every method is therefore a function
    from the editor before the call to the editor after the call, together
    with either what the method reports or the exception it raised.

    Snapshots are built with [deepcopy], and a snapshot that becomes the
    live tape is popped from its stack in the same statement, so no list
    object is ever shared between the live tape and a stack entry: lists
    are modelled as values.  Symbols are characters of type [ascii]; the
    head is a Python integer, hence a [Z], and subscripts follow Python's
    rules, negative ones included. *)

From Stdlib Require Import ZArith Ascii String List Bool Lia.
Import ListNotations.
Local Open Scope Z_scope.

(** ** Python list and string primitives *)

Module Py.

Definition len {A} (l : list A) : Z := Z.of_nat (length l).

(** [l.insert(i, x)]: a negative index counts from the end, and the index
    is then clipped into [0, len l]. *)
Definition insert {A} (l : list A) (i : Z) (x : A) : list A :=
  let n := len l in
  let k := if i <? 0 then Z.max 0 (i + n) else Z.min i n in
  firstn (Z.to_nat k) l ++ x :: skipn (Z.to_nat k) l.

(** Normalisation of a subscript: a negative one counts from the end;
    [None] stands for IndexError. *)
Definition index {A} (l : list A) (i : Z) : option nat :=
  let n := len l in
  let k := if i <? 0 then i + n else i in
  if (k <? 0) || (n <=? k) then None else Some (Z.to_nat k).

(** [l[i] = x] *)
Definition setitem {A} (l : list A) (i : Z) (x : A) : option (list A) :=
  match index l i with
  | Some k => Some (firstn k l ++ x :: skipn (S k) l)
  | None => None
  end.

(** [l[i]] *)
Definition getitem {A} (l : list A) (i : Z) : option A :=
  match index l i with
  | Some k => nth_error l k
  | None => None
  end.

(** [l.pop()]: the list without its last element, and that element;
    [None] stands for IndexError. *)
Definition pop {A} (l : list A) : option (list A * A) :=
  match rev l with
  | [] => None
  | x :: r => Some (rev r, x)
  end.

(** [l[:k]] *)
Definition slice_to {A} (l : list A) (k : Z) : list A :=
  if k <? 0 then firstn (Z.to_nat (Z.max 0 (len l + k))) l
  else firstn (Z.to_nat k) l.

(** [enumerate(l)] *)
Definition enumerate {A} (l : list A) : list (Z * A) :=
  combine (map Z.of_nat (seq 0 (length l))) l.

(** [range(a, b)] *)
Definition range (a b : Z) : list Z :=
  map (fun k => a + Z.of_nat k) (seq 0 (Z.to_nat (b - a))).

(** [max(l, default=d)] *)
Definition max_default (l : list Z) (d : Z) : Z :=
  match l with
  | [] => d
  | x :: r => fold_left Z.max r x
  end.

(** [[x] * n] *)
Definition times {A} (x : A) (n : Z) : list A := repeat x (Z.to_nat n).

(** [s.lstrip(c)] and [s.rstrip(c)] for a single character [c] *)
Fixpoint lstrip (s : list ascii) (c : ascii) : list ascii :=
  match s with
  | [] => []
  | x :: s' => if Ascii.eqb x c then lstrip s' c else s
  end.

Definition rstrip (s : list ascii) (c : ascii) : list ascii :=
  rev (lstrip (rev s) c).

(** [s.startswith(p)] *)
Fixpoint startswith (s p : list ascii) : bool :=
  match p, s with
  | [], _ => true
  | _ :: _, [] => false
  | a :: p', b :: s' => Ascii.eqb a b && startswith s' p'
  end.

(** The scan of [s.replace(old, new)] for a non-empty [old]: leftmost
    first, non-overlapping.  [skip] counts the characters of the current
    match that are still to be passed over. *)
Fixpoint replace_scan (old new : list ascii) (skip : nat) (s : list ascii)
  : list ascii :=
  match s with
  | [] => []
  | c :: t =>
      match skip with
      | S k => replace_scan old new k t
      | O =>
          if startswith s old
          then new ++ replace_scan old new (length old - 1) t
          else c :: replace_scan old new O t
      end
  end.

(** [s.replace(old, new)]; an empty [old] matches before every character
    and at the end. *)
Definition replace (s old new : list ascii) : list ascii :=
  match old with
  | [] => new ++ flat_map (fun c => c :: new) s
  | _ :: _ => replace_scan old new O s
  end.

End Py.

(** ** The editor object *)

Inductive Mode := insert | overwrite.

Definition blank : ascii := "_"%char.

(** An entry of a history stack: [(deepcopy(self.tape), self.head, self.mode)]. *)
Definition snapshot : Type := list ascii * Z * Mode.

Record TuringEditor := mkEditor {
  tape : list ascii;
  head : Z;
  state : string;
  mode : Mode;
  undo_stack : list snapshot;
  redo_stack : list snapshot
}.

Definition set_tape (t : list ascii) (ed : TuringEditor) : TuringEditor :=
  mkEditor t (head ed) (state ed) (mode ed) (undo_stack ed) (redo_stack ed).
Definition set_head (h : Z) (ed : TuringEditor) : TuringEditor :=
  mkEditor (tape ed) h (state ed) (mode ed) (undo_stack ed) (redo_stack ed).
Definition set_state (q : string) (ed : TuringEditor) : TuringEditor :=
  mkEditor (tape ed) (head ed) q (mode ed) (undo_stack ed) (redo_stack ed).
Definition set_mode (m : Mode) (ed : TuringEditor) : TuringEditor :=
  mkEditor (tape ed) (head ed) (state ed) m (undo_stack ed) (redo_stack ed).
Definition set_undo_stack (u : list snapshot) (ed : TuringEditor) : TuringEditor :=
  mkEditor (tape ed) (head ed) (state ed) (mode ed) u (redo_stack ed).
Definition set_redo_stack (r : list snapshot) (ed : TuringEditor) : TuringEditor :=
  mkEditor (tape ed) (head ed) (state ed) (mode ed) (undo_stack ed) r.

(** The part of the editor that a snapshot records. *)
Definition triple (ed : TuringEditor) : snapshot := (tape ed, head ed, mode ed).

(** [__init__(tape_size)] *)
Definition init (tape_size : Z) : TuringEditor :=
  mkEditor (Py.times blank tape_size) 0 "q0"%string insert [] [].

(** ** Methods: state transformers that may raise *)

Inductive exn := IndexError.

Inductive result (A : Type) :=
| Ret (a : A)
| Raise (e : exn).
Arguments Ret {A} a.
Arguments Raise {A} e.

Definition M (A : Type) : Type := TuringEditor -> TuringEditor * result A.

Definition ret {A} (a : A) : M A := fun ed => (ed, Ret a).

Definition bind {A B} (m : M A) (f : A -> M B) : M B :=
  fun ed =>
    match m ed with
    | (ed', Ret a) => f a ed'
    | (ed', Raise e) => (ed', Raise e)
    end.

Definition get : M TuringEditor := fun ed => (ed, Ret ed).

Definition modify (f : TuringEditor -> TuringEditor) : M unit :=
  fun ed => (f ed, Ret tt).

(** The value of a list operation, or IndexError. *)
Definition lift {A} (o : option A) : M A :=
  fun ed => match o with Some a => (ed, Ret a) | None => (ed, Raise IndexError) end.

Declare Scope editor_scope.
Delimit Scope editor_scope with ed.
Notation "x <- m ;; k" := (bind m (fun x => k))
  (at level 61, m at next level, right associativity) : editor_scope.
Notation "m ;; k" := (bind m (fun _ => k))
  (at level 61, right associativity) : editor_scope.
Local Open Scope editor_scope.

(** [for x in l: body(x)] *)
Fixpoint for_each {A} (l : list A) (body : A -> M unit) : M unit :=
  match l with
  | [] => ret tt
  | x :: r => body x ;; for_each r body
  end.

(** [self.tape[i] = c] *)
Definition write_slot (i : Z) (c : ascii) : M unit :=
  ed <- get ;;
  t <- lift (Py.setitem (tape ed) i c) ;;
  modify (set_tape t).

(** [self.tape[i]] *)
Definition read_slot (i : Z) : M ascii :=
  ed <- get ;;
  lift (Py.getitem (tape ed) i).

(** [self.tape.insert(i, c)] *)
Definition tape_insert (i : Z) (c : ascii) : M unit :=
  modify (fun ed => set_tape (Py.insert (tape ed) i c) ed).

(** [self.tape.pop()] *)
Definition tape_pop : M ascii :=
  ed <- get ;;
  p <- lift (Py.pop (tape ed)) ;;
  modify (set_tape (fst p)) ;;
  ret (snd p).

(** What a method tells its caller; the source prints these.  Every
    method ends with [display_tape], which only prints: it reads the tape
    through a slice and [_visible_length], changes nothing and cannot
    raise, so it is left out.  [word_count] and [save_to_file] only read
    [get_text]. *)
Inductive report :=
| Done
| Deleted (c : ascii)
| NothingToDelete
| NothingToUndo
| NothingToRedo
| FileNotFound.

(** *** Utility helpers *)

(** [max((i for i, c in enumerate(self.tape) if c != "_"), default=-1)] *)
Definition last_nonblank (t : list ascii) : Z :=
  Py.max_default
    (map fst (filter (fun p => negb (Ascii.eqb (snd p) blank)) (Py.enumerate t)))
    (-1).

Definition _visible_length (ed : TuringEditor) : Z :=
  Z.max (last_nonblank (tape ed) + 1) (head ed + 1).

Definition undo_bound : Z := 300.

Definition save_state : M unit :=
  modify (fun ed => set_undo_stack (undo_stack ed ++ [triple ed]) ed) ;;
  ed <- get ;;
  if Py.len (undo_stack ed) >? undo_bound
  then modify (set_undo_stack (tl (undo_stack ed)))
  else ret tt.

Definition get_text (ed : TuringEditor) : list ascii :=
  Py.rstrip (Py.slice_to (tape ed) (_visible_length ed)) blank.

Definition clear_redo : M unit := modify (set_redo_stack []).

(** *** Editing operations *)

(** The body of [for ch in text] in [type_text]. *)
Definition type_symbol (ch : ascii) : M unit :=
  ed <- get ;;
  match mode ed with
  | insert =>
      tape_insert (head ed) ch ;;
      tape_pop ;;
      ret tt
  | overwrite =>
      write_slot (head ed) ch
  end ;;
  modify (fun ed => set_head (head ed + 1) ed).

Definition type_text (text : string) : M report :=
  match text with
  | EmptyString => ret Done
  | _ =>
      save_state ;;
      modify (set_state "Typing"%string) ;;
      for_each (list_ascii_of_string text) type_symbol ;;
      clear_redo ;;
      ret Done
  end.

Definition backspace : M report :=
  ed <- get ;;
  if head ed =? 0 then ret NothingToDelete
  else
    save_state ;;
    modify (set_state "Delete"%string) ;;
    modify (fun ed => set_head (head ed - 1) ed) ;;
    ed <- get ;;
    deleted <- read_slot (head ed) ;;
    write_slot (head ed) blank ;;
    clear_redo ;;
    ret (Deleted deleted).

Definition move_left : M report :=
  modify (set_state "Move_Left"%string) ;;
  ed <- get ;;
  (if head ed >? 0 then modify (set_head (head ed - 1)) else ret tt) ;;
  ret Done.

Definition move_right : M report :=
  modify (set_state "Move_Right"%string) ;;
  ed <- get ;;
  (if head ed <? Py.len (tape ed) - 1 then modify (set_head (head ed + 1))
   else ret tt) ;;
  ret Done.

Definition move_start : M report :=
  modify (set_state "Move_Start"%string) ;;
  modify (set_head 0) ;;
  ret Done.

Definition move_end : M report :=
  modify (set_state "Move_End"%string) ;;
  modify (fun ed => set_head (_visible_length ed - 1) ed) ;;
  ret Done.

(** [self.tape, self.head, self.mode = s] *)
Definition restore (s : snapshot) (ed : TuringEditor) : TuringEditor :=
  let '(t, h, m) := s in set_mode m (set_head h (set_tape t ed)).

Definition undo : M report :=
  ed <- get ;;
  match undo_stack ed with
  | [] => ret NothingToUndo
  | _ :: _ =>
      modify (set_state "Undo"%string) ;;
      modify (fun ed => set_redo_stack (redo_stack ed ++ [triple ed]) ed) ;;
      ed <- get ;;
      p <- lift (Py.pop (undo_stack ed)) ;;
      modify (set_undo_stack (fst p)) ;;
      modify (restore (snd p)) ;;
      ret Done
  end.

Definition redo : M report :=
  ed <- get ;;
  match redo_stack ed with
  | [] => ret NothingToRedo
  | _ :: _ =>
      modify (set_state "Redo"%string) ;;
      modify (fun ed => set_undo_stack (undo_stack ed ++ [triple ed]) ed) ;;
      ed <- get ;;
      p <- lift (Py.pop (redo_stack ed)) ;;
      modify (set_redo_stack (fst p)) ;;
      modify (restore (snd p)) ;;
      ret Done
  end.

Definition toggle_mode : M report :=
  modify (fun ed =>
    set_mode (match mode ed with insert => overwrite | overwrite => insert end) ed) ;;
  ret Done.

Definition clear_all : M report :=
  save_state ;;
  modify (fun ed => set_tape (Py.times blank (Py.len (tape ed))) ed) ;;
  modify (set_head 0) ;;
  modify (set_state "Clear"%string) ;;
  ret Done.

Definition replace_text (old new : string) : M report :=
  save_state ;;
  ed <- get ;;
  let text :=
    Py.replace (get_text ed) (list_ascii_of_string old) (list_ascii_of_string new) in
  for_each (Py.enumerate text) (fun p => write_slot (fst p) (snd p)) ;;
  ed <- get ;;
  for_each (Py.range (Py.len text) (Py.len (tape ed))) (fun j => write_slot j blank) ;;
  ret Done.

(** [load_from_file]: [content] is what [open(filename).read()] yields,
    [None] when the file does not exist. *)
Definition load_from_file (content : option string) : M report :=
  match content with
  | None => ret FileNotFound
  | Some s =>
      let content := list_ascii_of_string s in
      save_state ;;
      modify (fun ed =>
        set_tape (content ++ Py.times blank (Py.len (tape ed) - Py.len content)) ed) ;;
      modify (set_head (Py.len content)) ;;
      ret Done
  end.

(** ** The commands of the driver *)

Inductive command :=
| CType (text : string)
| CDel
| CLeft
| CRight
| CStart
| CEnd
| CMode
| CUndo
| CRedo
| CReplace (old new : string)
| CClear
| CLoad (content : option string).

Definition exec (c : command) : M report :=
  match c with
  | CType text => type_text text
  | CDel => backspace
  | CLeft => move_left
  | CRight => move_right
  | CStart => move_start
  | CEnd => move_end
  | CMode => toggle_mode
  | CUndo => undo
  | CRedo => redo
  | CReplace old new => replace_text old new
  | CClear => clear_all
  | CLoad content => load_from_file content
  end.

(** The editor after a command; the driver catches every exception and
    carries on with the object as the failed method left it. *)
Definition after (c : command) (ed : TuringEditor) : TuringEditor :=
  fst (exec c ed).

Definition run (cs : list command) (ed : TuringEditor) : TuringEditor :=
  fold_left (fun ed c => after c ed) cs ed.

Inductive reachable (n : Z) : TuringEditor -> Prop :=
| reach_init : reachable n (init n)
| reach_step c ed : reachable n ed -> reachable n (after c ed).

(** The mutating edits of the engine. *)
Inductive edit :=
| EType (text : string)
| EBackspace
| EClearAll
| EReplace (old new : string).

Definition perform (e : edit) : M report :=
  match e with
  | EType text => type_text text
  | EBackspace => backspace
  | EClearAll => clear_all
  | EReplace old new => replace_text old new
  end.

(** The edit does not take its no-op path. *)
Definition mutating (e : edit) (ed : TuringEditor) : Prop :=
  match e with
  | EType text => text <> EmptyString
  | EBackspace => head ed <> 0
  | EClearAll | EReplace _ _ => True
  end.

(** ** Notions used in the statements *)

(** The undo stack after a checkpoint of [s] on [u]. *)
Definition push_bounded (s : snapshot) (u : list snapshot) : list snapshot :=
  if Py.len (u ++ [s]) >? undo_bound then tl (u ++ [s]) else u ++ [s].

(** [m] leaves the observation [f] of the editor as it is. *)
Definition preserves {X A} (f : TuringEditor -> X) (m : M A) : Prop :=
  forall ed, f (fst (m ed)) = f ed.

(** [m] keeps the property [P] of the editor. *)
Definition keeps {A} (P : TuringEditor -> Prop) (m : M A) : Prop :=
  forall ed, P ed -> P (fst (m ed)).

Definition tape_len (ed : TuringEditor) : Z := Py.len (tape ed).

(** The live triple and every stored snapshot satisfy [S]. *)
Definition well_formed (S : snapshot -> Prop) (ed : TuringEditor) : Prop :=
  S (triple ed) /\ Forall S (undo_stack ed) /\ Forall S (redo_stack ed).

Definition has_length (n : Z) (s : snapshot) : Prop := Py.len (fst (fst s)) = n.

Definition head_nonneg (s : snapshot) : Prop := 0 <= snd (fst s).

Definition in_range (s : snapshot) : Prop :=
  0 <= snd (fst s) <= Py.len (fst (fst s)) - 1.

(** A command whose loaded content, if any, fits a tape of [n] slots. *)
Definition within (n : Z) (c : command) : Prop :=
  match c with
  | CLoad (Some s) => Py.len (list_ascii_of_string s) <= n
  | _ => True
  end.

(** A command that does not type or load past the last slot. *)
Definition stays_inside (ed : TuringEditor) (c : command) : Prop :=
  match c with
  | CType text => head ed + Py.len (list_ascii_of_string text) <= tape_len ed - 1
  | CLoad (Some s) => Py.len (list_ascii_of_string s) <= tape_len ed - 1
  | _ => True
  end.

(** A text of [n] letters. *)
Definition letters (n : nat) : string := string_of_list_ascii (repeat "a"%char n).

(** An editor whose redo stack holds one entry: "ab" typed, then undone. *)
Definition ed_undone : TuringEditor :=
  Eval vm_compute in run [CType "ab"; CUndo] (init 10).

(** The same editor after "c" is typed. *)
Definition ed_retyped : TuringEditor :=
  Eval vm_compute in after (CType "c") ed_undone.

(** The editor after "ab" is typed on ten blanks. *)
Definition ed_ab : TuringEditor :=
  Eval vm_compute in after (CType "ab") (init 10).

(** ** Read-only methods *)

Definition upper_mode (m : Mode) : string :=
  match m with
  | insert => "INSERT"
  | overwrite => "OVERWRITE"
  end.

(** [visible] and [cursor_line] of [display_tape] *)
Definition visible (ed : TuringEditor) : list ascii :=
  if _visible_length ed >? 0
  then Py.slice_to (tape ed) (_visible_length ed)
  else [blank].

Definition cursor_line (ed : TuringEditor) : list ascii :=
  Py.times " "%char (head ed) ++ ["^"%char].

(** [display_tape]: the three strings it hands to [print]. *)
Definition display_tape (ed : TuringEditor) : list string :=
  [ (String (ascii_of_nat 10) "State: " ++ state ed ++ " | Mode: " ++ upper_mode (mode ed))%string;
    ("Tape : " ++ string_of_list_ascii (visible ed))%string;
    ("Head : " ++ string_of_list_ascii (cursor_line ed))%string ].

(** [save_to_file]: the string handed to [f.write]. *)
Definition save_to_file (ed : TuringEditor) : string :=
  string_of_list_ascii (get_text ed).

(** ** Notions used in the statements of the further properties *)

(** [w] typed at position [h] of [t] in insert mode: the rest moves right
    and what no longer fits is dropped. *)
Definition inserted (t : list ascii) (h : nat) (w : list ascii) : list ascii :=
  firstn (length t) (firstn h t ++ w ++ skipn h t).

(** [w] written over [t] from position [h] on. *)
Definition overwritten (t : list ascii) (h : nat) (w : list ascii) : list ascii :=
  firstn h t ++ w ++ skipn (h + length w) t.

(** The commands that only move the head or switch the mode. *)
Definition is_motion (c : command) : Prop :=
  match c with
  | CLeft | CRight | CStart | CEnd | CMode => True
  | _ => False
  end.

(** The command takes a checkpoint on [ed]. *)
Definition checkpoints (c : command) (ed : TuringEditor) : Prop :=
  match c with
  | CType text => text <> EmptyString
  | CDel => head ed <> 0
  | CReplace _ _ | CClear | CLoad (Some _) => True
  | _ => False
  end.

(** Every command of [cs], run in turn from [ed], takes a checkpoint. *)
Fixpoint all_checkpoint (cs : list command) (ed : TuringEditor) : Prop :=
  match cs with
  | [] => True
  | c :: cs' => checkpoints c ed /\ all_checkpoint cs' (after c ed)
  end.

(** [k] undos in a row. *)
Fixpoint undo_times (k : nat) (ed : TuringEditor) : TuringEditor :=
  match k with
  | O => ed
  | S k' => undo_times k' (after CUndo ed)
  end.

(** An editor of two slots whose undo stack is full: 300 clears. *)
Definition ed_full : TuringEditor := run (repeat CClear 300) (init 2).

(** The default editor in overwrite mode. *)
Definition ed_over : TuringEditor :=
  Eval vm_compute in after CMode (init 5).

(** [k] redos in a row. *)
Fixpoint redo_times (k : nat) (ed : TuringEditor) : TuringEditor :=
  match k with
  | O => ed
  | S k' => redo_times k' (after CRedo ed)
  end.

(** An editor with two snapshots to undo. *)
Definition ed_two : TuringEditor :=
  Eval vm_compute in run [CType "ab"; CDel] (init 10).

(** ** Python string methods used by [word_count] and the driver

    A [string] stands for a Python [str] whose characters are the code
    points 0 to 255. *)

Module PyStr.

(** [c.isspace()]: tab to carriage return, the four separators 28 to 31,
    the space, NEL and the no-break space. *)
Definition isspace (c : ascii) : bool :=
  let n := nat_of_ascii c in
  ((9 <=? n) && (n <=? 13) || (28 <=? n) && (n <=? 32) || (n =? 133) || (n =? 160))%nat.

(** The scan of [s.split()]: [cur] holds, reversed, the characters of the
    word being read. *)
Fixpoint split_scan (s : list ascii) (cur : list ascii) : list (list ascii) :=
  match s with
  | [] => match cur with [] => [] | _ :: _ => [rev cur] end
  | c :: s' =>
      if isspace c
      then match cur with
           | [] => split_scan s' []
           | _ :: _ => rev cur :: split_scan s' []
           end
      else split_scan s' (c :: cur)
  end.

(** [s.split()] *)
Definition split (s : list ascii) : list (list ascii) := split_scan s [].

(** [s.lstrip()] and [s.strip()] *)
Fixpoint lstrip (s : list ascii) : list ascii :=
  match s with
  | [] => []
  | c :: s' => if isspace c then lstrip s' else s
  end.

Definition strip (s : list ascii) : list ascii := rev (lstrip (rev (lstrip s))).

(** [s.lower()]: A-Z and the capital letters 192 to 222 (215, the
    multiplication sign, apart) move up by 32. *)
Definition lower_char (c : ascii) : ascii :=
  let n := nat_of_ascii c in
  if ((65 <=? n) && (n <=? 90) || (192 <=? n) && (n <=? 222) && negb (n =? 215))%nat
  then ascii_of_nat (n + 32)
  else c.

Definition lower (s : list ascii) : list ascii := map lower_char s.

(** [sep.join(l)] *)
Fixpoint join (sep : list ascii) (l : list (list ascii)) : list ascii :=
  match l with
  | [] => []
  | [x] => x
  | x :: r => x ++ sep ++ join sep r
  end.

End PyStr.

(** [word_count]: the two numbers it prints. *)
Definition word_count (ed : TuringEditor) : Z * Z :=
  let words := PyStr.split (get_text ed) in
  (Py.len words, Py.len (get_text ed)).

(** ** The driver: one round of the loop of [run_editor] *)

(** The method the driver calls for a line, with its arguments. *)
Inductive call :=
| KType (text : string)
| KDel
| KLeft
| KRight
| KStart
| KEnd
| KMode
| KUndo
| KRedo
| KReplace (old new : string)
| KClear
| KCount
| KSave (filename : string)
| KLoad (filename : string)
| KShow
| KExit
| KInvalid.

(** What a round does with the line read: go on to the next round on an
    empty command, die on an uncaught IndexError at [parts[0]], or make a
    call. *)
Inductive round :=
| Continue
| Crash
| Call (k : call).

(** [parts[i]] as a string, for an index known to exist. *)
Definition part (parts : list (list ascii)) (i : nat) : string :=
  string_of_list_ascii (nth i parts []).

Definition dispatch (line : string) : round :=
  let cmd := PyStr.strip (list_ascii_of_string line) in
  match cmd with
  | [] => Continue
  | _ :: _ =>
      let parts := PyStr.split cmd in
      match parts with
      | [] => Crash
      | p0 :: args =>
          let c := string_of_list_ascii (PyStr.lower p0) in
          let n := length parts in
          if (c =? "type")%string
          then Call (KType (string_of_list_ascii (PyStr.join [" "%char] args)))
          else if (c =? "del")%string then Call KDel
          else if (c =? "left")%string then Call KLeft
          else if (c =? "right")%string then Call KRight
          else if (c =? "start")%string then Call KStart
          else if (c =? "end")%string then Call KEnd
          else if (c =? "mode")%string then Call KMode
          else if (c =? "undo")%string then Call KUndo
          else if (c =? "redo")%string then Call KRedo
          else if (c =? "replace")%string && (n =? 3)%nat
          then Call (KReplace (part parts 1) (part parts 2))
          else if (c =? "clear")%string then Call KClear
          else if (c =? "count")%string then Call KCount
          else if (c =? "save")%string && (n =? 2)%nat then Call (KSave (part parts 1))
          else if (c =? "load")%string && (n =? 2)%nat then Call (KLoad (part parts 1))
          else if (c =? "show")%string then Call KShow
          else if (c =? "exit")%string then Call KExit
          else Call KInvalid
      end
  end.


(** * Properties *)

(** ** The scenarios of the specification, run on the embedding *)

Example scenario_type_backspace_undo :
  triple (after (CType "ab") (init 10))
  = (list_ascii_of_string "ab________", 2, insert) /\
  backspace (after (CType "ab") (init 10))
  = (run [CType "ab"; CDel] (init 10), Ret (Deleted "b")) /\
  triple (run [CType "ab"; CDel] (init 10))
  = (list_ascii_of_string "a_________", 1, insert) /\
  triple (run [CType "ab"; CDel; CUndo] (init 10))
  = (list_ascii_of_string "ab________", 2, insert).
Proof. vm_compute. repeat split. Qed.

Example scenario_replace :
  get_text (run [CType "ab ab"; CReplace "ab" "xyz"] (init 8))
  = list_ascii_of_string "xyz xyz".
Proof. vm_compute. reflexivity. Qed.

Example scenario_overwrite :
  triple (run [CType "ab"; CStart; CMode; CType "Z"] (init 10))
  = (list_ascii_of_string "Zb________", 1, overwrite).
Proof. vm_compute. reflexivity. Qed.

Example replace_empty_pattern :
  Py.replace (list_ascii_of_string "abc") [] (list_ascii_of_string "-")
  = list_ascii_of_string "-a-b-c-".
Proof. reflexivity. Qed.

Example replace_does_not_overlap :
  Py.replace (list_ascii_of_string "aaa")
    (list_ascii_of_string "aa") (list_ascii_of_string "b")
  = list_ascii_of_string "ba".
Proof. reflexivity. Qed.

Lemma run_app cs1 cs2 ed : run (cs1 ++ cs2) ed = run cs2 (run cs1 ed).
Proof. unfold run. apply fold_left_app. Qed.

Lemma run_reachable n cs : reachable n (run cs (init n)).
Proof.
  induction cs as [|c cs IH] using rev_ind.
  - apply reach_init.
  - rewrite run_app. simpl. now apply reach_step.
Qed.

(** ** Python lists *)

Lemma pop_app {A} (l : list A) (x : A) : Py.pop (l ++ [x]) = Some (l, x).
Proof.
  unfold Py.pop. rewrite rev_app_distr. simpl. now rewrite rev_involutive.
Qed.

Lemma nonempty_top {A} (l : list A) : l <> [] -> exists r x, l = r ++ [x].
Proof.
  intro H. destruct (exists_last H) as (r & x & E). now exists r, x.
Qed.

Lemma len_app {A} (l r : list A) : Py.len (l ++ r) = Py.len l + Py.len r.
Proof. unfold Py.len. rewrite length_app. lia. Qed.

Lemma len_nonneg {A} (l : list A) : 0 <= Py.len l.
Proof. unfold Py.len. lia. Qed.

Lemma len_cons {A} (x : A) (l : list A) : Py.len (x :: l) = 1 + Py.len l.
Proof. unfold Py.len. simpl length. lia. Qed.

Lemma tl_app_top {A} (l : list A) (x : A) :
  1 < Py.len (l ++ [x]) -> tl (l ++ [x]) = tl l ++ [x].
Proof.
  destruct l as [|y l]; simpl; [unfold Py.len; simpl; lia | reflexivity].
Qed.

Lemma len_insert {A} (l : list A) i x : Py.len (Py.insert l i x) = Py.len l + 1.
Proof.
  unfold Py.insert, Py.len.
  set (k := Z.to_nat _). rewrite <- (firstn_skipn k l) at 3.
  rewrite !length_app. simpl. lia.
Qed.

Lemma pop_len {A} (l l' : list A) x :
  Py.pop l = Some (l', x) -> Py.len l = Py.len l' + 1.
Proof.
  unfold Py.pop, Py.len. intro H. rewrite <- (length_rev l).
  destruct (rev l) as [|y r]; [discriminate|]. inversion H; subst.
  rewrite length_rev. simpl. lia.
Qed.

Lemma pop_insert {A} (l : list A) i x : Py.pop (Py.insert l i x) <> None.
Proof.
  unfold Py.pop, Py.insert. rewrite rev_app_distr. simpl. rewrite <- app_assoc.
  destruct (rev (skipn _ l)); discriminate.
Qed.

Lemma index_lt {A} (l : list A) i k : Py.index l i = Some k -> (k < length l)%nat.
Proof.
  unfold Py.index, Py.len.
  destruct (i <? 0) eqn:E;
    match goal with |- context [(?a <? 0) || (?b <=? ?c)] =>
      destruct (Z.ltb_spec a 0); destruct (Z.leb_spec b c) end;
    simpl; intro Hk; inversion Hk; lia.
Qed.

Lemma index_inside {A} (l : list A) i :
  0 <= i < Py.len l -> Py.index l i = Some (Z.to_nat i).
Proof.
  intro H. unfold Py.index.
  destruct (Z.ltb_spec i 0); [lia|].
  destruct (Z.ltb_spec i 0); [lia|].
  destruct (Z.leb_spec (Py.len l) i); [lia | reflexivity].
Qed.

Lemma len_setitem {A} (l l' : list A) i x :
  Py.setitem l i x = Some l' -> Py.len l' = Py.len l.
Proof.
  unfold Py.setitem. destruct (Py.index l i) as [k|] eqn:E; [|discriminate].
  intros [= <-]. apply index_lt in E.
  unfold Py.len. rewrite length_app, length_firstn, length_cons.
  change (match l with [] => [] | _ :: l0 => skipn k l0 end) with (skipn (S k) l).
  rewrite length_skipn. lia.
Qed.

Lemma setitem_inside {A} (l : list A) i x :
  0 <= i < Py.len l -> exists l', Py.setitem l i x = Some l'.
Proof.
  intro H. unfold Py.setitem. rewrite (index_inside l i H). now eexists.
Qed.

Lemma getitem_inside {A} (l : list A) i :
  0 <= i < Py.len l -> exists x, Py.getitem l i = Some x.
Proof.
  intro H. unfold Py.getitem. rewrite (index_inside l i H).
  destruct (nth_error l (Z.to_nat i)) as [x|] eqn:E; [now exists x|].
  apply nth_error_None in E. unfold Py.len in H. lia.
Qed.

Lemma len_times {A} (x : A) n : 0 <= n -> Py.len (Py.times x n) = n.
Proof. intro H. unfold Py.len, Py.times. rewrite repeat_length. lia. Qed.

Lemma fold_max_le r : forall x b,
  x <= b -> Forall (fun y => y <= b) r -> fold_left Z.max r x <= b.
Proof.
  induction r as [|y r IH]; intros x b Hx Hr; simpl; [exact Hx|].
  inversion Hr; subst. apply IH; [lia | assumption].
Qed.

Lemma max_default_le l d b :
  d <= b -> Forall (fun y => y <= b) l -> Py.max_default l d <= b.
Proof.
  intros Hd Hl. destruct l as [|x r]; simpl; [exact Hd|].
  inversion Hl; subst. now apply fold_max_le.
Qed.

Lemma enumerate_index {A} (l : list A) i x :
  In (i, x) (Py.enumerate l) -> 0 <= i <= Py.len l - 1.
Proof.
  unfold Py.enumerate, Py.len. intro H. apply in_combine_l in H.
  apply in_map_iff in H. destruct H as (k & <- & Hk). apply in_seq in Hk. lia.
Qed.

Lemma range_index a b j : In j (Py.range a b) -> a <= j <= b - 1.
Proof.
  unfold Py.range. intro H. apply in_map_iff in H.
  destruct H as (k & <- & Hk). apply in_seq in Hk. lia.
Qed.

Lemma lstrip_first s c x r : Py.lstrip s c = x :: r -> x <> c.
Proof.
  induction s as [|y s IH]; simpl; [discriminate|].
  destruct (Ascii.eqb_spec y c) as [E|N]; [exact IH|].
  intro H. inversion H. now subst.
Qed.

Lemma rstrip_last s c r : Py.rstrip s c <> r ++ [c].
Proof.
  unfold Py.rstrip. intro H.
  apply (f_equal (@rev ascii)) in H.
  rewrite rev_involutive, rev_app_distr in H. simpl in H.
  now apply lstrip_first in H.
Qed.

(** ** Frame reasoning: what a computation leaves alone *)

Section Frame.
Context {X : Type} (f : TuringEditor -> X).

Lemma preserves_ret {A} (a : A) : preserves f (ret a).
Proof. intro ed. reflexivity. Qed.

Lemma preserves_get : preserves f get.
Proof. intro ed. reflexivity. Qed.

Lemma preserves_lift {A} (o : option A) : preserves f (lift o).
Proof. intro ed. unfold lift. now destruct o. Qed.

Lemma preserves_modify g :
  (forall ed, f (g ed) = f ed) -> preserves f (modify g).
Proof. intros H ed. apply H. Qed.

Lemma preserves_bind {A B} (m : M A) (k : A -> M B) :
  preserves f m -> (forall a, preserves f (k a)) -> preserves f (bind m k).
Proof.
  intros Hm Hk ed. unfold bind.
  specialize (Hm ed). destruct (m ed) as [ed' [a|e]]; simpl in *.
  - now rewrite Hk.
  - exact Hm.
Qed.

Lemma preserves_for_each {A} (l : list A) (body : A -> M unit) :
  (forall x, preserves f (body x)) -> preserves f (for_each l body).
Proof.
  intro Hb. induction l as [|x l IH]; simpl.
  - apply preserves_ret.
  - apply preserves_bind; auto.
Qed.

End Frame.

(** ** Invariant reasoning: what a computation keeps true *)

Section Keeps.
Context (P : TuringEditor -> Prop).

Lemma keeps_ret {A} (a : A) : keeps P (ret a).
Proof. intros ed H. exact H. Qed.

Lemma keeps_get : keeps P get.
Proof. intros ed H. exact H. Qed.

Lemma keeps_lift {A} (o : option A) : keeps P (lift o).
Proof. intros ed H. unfold lift. now destruct o. Qed.

Lemma keeps_modify g : (forall ed, P ed -> P (g ed)) -> keeps P (modify g).
Proof. intros H ed. apply H. Qed.

Lemma keeps_bind {A B} (m : M A) (k : A -> M B) :
  keeps P m -> (forall a, keeps P (k a)) -> keeps P (bind m k).
Proof.
  intros Hm Hk ed H. unfold bind.
  specialize (Hm ed H). destruct (m ed) as [ed' [a|e]]; simpl in *.
  - now apply Hk.
  - exact Hm.
Qed.

Lemma keeps_for_each {A} (l : list A) (body : A -> M unit) :
  (forall x, keeps P (body x)) -> keeps P (for_each l body).
Proof.
  intro Hb. induction l as [|x l IH]; simpl.
  - apply keeps_ret.
  - apply keeps_bind; auto.
Qed.

End Keeps.

Lemma bind_ret_inv {A B} (m : M A) (k : A -> M B) ed ed' b :
  bind m k ed = (ed', Ret b) ->
  exists a ed1, m ed = (ed1, Ret a) /\ k a ed1 = (ed', Ret b).
Proof.
  unfold bind. destruct (m ed) as [ed1 [a|e]]; intro H.
  - now exists a, ed1.
  - discriminate.
Qed.

(** ** Checkpointing *)

Lemma save_state_eq ed :
  save_state ed = (set_undo_stack (push_bounded (triple ed) (undo_stack ed)) ed, Ret tt).
Proof.
  unfold save_state, push_bounded, bind, modify, get. simpl.
  destruct (Py.len (undo_stack ed ++ [triple ed]) >? undo_bound); reflexivity.
Qed.

Lemma bind_save_state {B} (k : unit -> M B) ed :
  bind save_state k ed =
  k tt (set_undo_stack (push_bounded (triple ed) (undo_stack ed)) ed).
Proof. unfold bind. now rewrite save_state_eq. Qed.

Lemma save_state_preserves {X} (f : TuringEditor -> X) :
  (forall u ed, f (set_undo_stack u ed) = f ed) -> preserves f save_state.
Proof. intros H ed. rewrite save_state_eq. apply H. Qed.

Lemma save_state_keeps (P : TuringEditor -> Prop) :
  (forall u ed, P ed -> P (set_undo_stack u ed)) -> keeps P save_state.
Proof. intros H ed HP. rewrite save_state_eq. now apply H. Qed.

Lemma push_bounded_top s u : exists u', push_bounded s u = u' ++ [s].
Proof.
  unfold push_bounded.
  destruct (Py.len (u ++ [s]) >? undo_bound) eqn:E.
  - exists (tl u). apply tl_app_top. unfold undo_bound in E. lia.
  - now exists u.
Qed.

Lemma push_bounded_len s u :
  Py.len u <= undo_bound -> Py.len (push_bounded s u) <= undo_bound.
Proof.
  unfold push_bounded. intro H.
  destruct (Py.len (u ++ [s]) >? undo_bound) eqn:E; [|lia].
  rewrite len_app in *. unfold Py.len in *.
  destruct (u ++ [s]) eqn:Eu.
  - simpl. unfold undo_bound. lia.
  - assert (length (u ++ [s]) = S (length l)) by now rewrite Eu.
    rewrite length_app in *. simpl in *. lia.
Qed.

(** The tactics unfold the tape primitives and walk through a method. *)
Ltac frame :=
  unfold write_slot, read_slot, tape_insert, tape_pop, clear_redo;
  repeat first
    [ apply preserves_ret
    | apply preserves_get
    | apply preserves_lift
    | apply preserves_modify; intros; reflexivity
    | apply save_state_preserves; intros; reflexivity
    | apply preserves_bind; [ | intros ]
    | apply preserves_for_each; intros
    | lazymatch goal with
      | |- preserves _ (match ?x with _ => _ end) => destruct x
      end ].

Ltac keep :=
  unfold write_slot, read_slot, tape_insert, tape_pop, clear_redo;
  repeat first
    [ apply keeps_ret
    | apply keeps_get
    | apply keeps_lift
    | apply save_state_keeps; intros
    | apply keeps_bind; [ | intros ]
    | apply keeps_for_each; intros
    | lazymatch goal with
      | |- keeps _ (match ?x with _ => _ end) => destruct x eqn:?
      end
    | apply keeps_modify; intros ].

(** ** Undo and redo *)

Lemma triple_restore s ed : triple (restore s ed) = s.
Proof. destruct s as [[t h] m]. reflexivity. Qed.

Lemma undo_top ed u s :
  undo_stack ed = u ++ [s] ->
  undo ed =
  (restore s (set_undo_stack u
     (set_redo_stack (redo_stack ed ++ [triple ed]) (set_state "Undo" ed))),
   Ret Done).
Proof.
  intro H.
  assert (P : Py.pop (undo_stack ed) = Some (u, s)) by (rewrite H; apply pop_app).
  unfold undo, bind, get.
  destruct (undo_stack ed) eqn:E; [destruct u; discriminate|].
  unfold modify, lift, ret. simpl. rewrite E, P. reflexivity.
Qed.

Lemma redo_top ed r s :
  redo_stack ed = r ++ [s] ->
  redo ed =
  (restore s (set_redo_stack r
     (set_undo_stack (undo_stack ed ++ [triple ed]) (set_state "Redo" ed))),
   Ret Done).
Proof.
  intro H.
  assert (P : Py.pop (redo_stack ed) = Some (r, s)) by (rewrite H; apply pop_app).
  unfold redo, bind, get.
  destruct (redo_stack ed) eqn:E; [destruct r; discriminate|].
  unfold modify, lift, ret. simpl. rewrite E, P. reflexivity.
Qed.

Lemma backspace_at_start ed :
  head ed = 0 -> backspace ed = (ed, Ret NothingToDelete).
Proof. intro H. unfold backspace, bind, get. now rewrite H. Qed.

Lemma undo_empty ed :
  undo_stack ed = [] -> undo ed = (ed, Ret NothingToUndo).
Proof. intro H. unfold undo, bind, get. now rewrite H. Qed.

Lemma redo_empty ed :
  redo_stack ed = [] -> redo ed = (ed, Ret NothingToRedo).
Proof. intro H. unfold redo, bind, get. now rewrite H. Qed.

(** ** Every edit checkpoints first and then leaves the undo stack alone *)

Lemma type_text_nonempty text ed :
  text <> EmptyString ->
  type_text text ed =
  (modify (set_state "Typing") ;;
   for_each (list_ascii_of_string text) type_symbol ;;
   clear_redo ;;
   ret Done)
    (set_undo_stack (push_bounded (triple ed) (undo_stack ed)) ed).
Proof.
  intro H. destruct text as [|c text]; [congruence|].
  unfold type_text. apply bind_save_state.
Qed.

Lemma backspace_away ed :
  head ed <> 0 ->
  backspace ed =
  (modify (set_state "Delete") ;;
   modify (fun ed => set_head (head ed - 1) ed) ;;
   ed <- get ;;
   deleted <- read_slot (head ed) ;;
   write_slot (head ed) blank ;;
   clear_redo ;;
   ret (Deleted deleted))
    (set_undo_stack (push_bounded (triple ed) (undo_stack ed)) ed).
Proof.
  intro H. unfold backspace. unfold bind at 1. unfold get at 1.
  destruct (Z.eqb_spec (head ed) 0) as [E|_]; [congruence|].
  apply bind_save_state.
Qed.

Lemma edit_checkpoints e ed :
  mutating e ed ->
  undo_stack (fst (perform e ed)) = push_bounded (triple ed) (undo_stack ed).
Proof.
  destruct e as [text| | |old new]; simpl; intro Hm.
  - rewrite (type_text_nonempty text ed Hm).
    match goal with
    | |- undo_stack (fst (?k ?s)) = _ =>
        assert (P : preserves undo_stack k)
          by (unfold type_symbol; frame);
        now rewrite P
    end.
  - rewrite (backspace_away ed Hm).
    match goal with
    | |- undo_stack (fst (?k ?s)) = _ =>
        assert (P : preserves undo_stack k) by frame; now rewrite P
    end.
  - unfold clear_all. rewrite bind_save_state. reflexivity.
  - unfold replace_text. rewrite bind_save_state.
    match goal with
    | |- undo_stack (fst (?k ?s)) = _ =>
        assert (P : preserves undo_stack k) by frame; now rewrite P
    end.
Qed.

(** C1: whatever the editor and whichever mutating edit is performed on it
    (typing a non-empty text, a backspace away from position 0, clearing,
    replacing), an undo issued right after the edit succeeds and puts back
    exactly the tape, head and mode the editor had before the edit.  The
    undo stack may have any depth, the full 300 included, and the edit may
    even have been cut short by an exception. *)
Theorem undo_after_edit_restores (ed : TuringEditor) (e : edit) :
  mutating e ed ->
  snd (undo (fst (perform e ed))) = Ret Done /\
  triple (fst (undo (fst (perform e ed)))) = triple ed.
Proof.
  intro Hm.
  pose proof (edit_checkpoints e ed Hm) as Hu.
  destruct (push_bounded_top (triple ed) (undo_stack ed)) as [u Eu].
  rewrite Eu in Hu. rewrite (undo_top _ u (triple ed) Hu).
  split; [reflexivity | apply triple_restore].
Qed.

Lemma undo_after_edit_restores_witness :
  head ed_ab <> 0 /\
  snd (undo (fst (backspace ed_ab))) = Ret Done /\
  triple (fst (undo (fst (backspace ed_ab)))) = triple ed_ab.
Proof.
  assert (H : head ed_ab <> 0) by (simpl; lia).
  split; [exact H | exact (undo_after_edit_restores ed_ab EBackspace H)].
Defined.

(** C2: when the undo stack is not empty, an undo followed at once by a
    redo succeeds twice and leaves tape, head and mode as they were before
    the undo. *)
Theorem undo_then_redo_identity (ed : TuringEditor) :
  undo_stack ed <> [] ->
  snd (undo ed) = Ret Done /\
  snd (redo (fst (undo ed))) = Ret Done /\
  triple (fst (redo (fst (undo ed)))) = triple ed.
Proof.
  intro Hne.
  destruct (nonempty_top _ Hne) as (u & s & Eu).
  rewrite (undo_top ed u s Eu). cbn [fst snd].
  match goal with
  | |- _ /\ snd (redo ?e) = _ /\ _ =>
      assert (Hr : redo_stack e = redo_stack ed ++ [triple ed])
        by (destruct s as [[t h] m]; reflexivity);
      rewrite (redo_top e _ _ Hr)
  end.
  split; [reflexivity | split; [reflexivity | apply triple_restore]].
Qed.

Lemma undo_then_redo_identity_witness :
  undo_stack ed_ab <> [] /\
  snd (undo ed_ab) = Ret Done /\
  snd (redo (fst (undo ed_ab))) = Ret Done /\
  triple (fst (redo (fst (undo ed_ab)))) = triple ed_ab.
Proof.
  assert (H : undo_stack ed_ab <> []) by (simpl; discriminate).
  split; [exact H | exact (undo_then_redo_identity ed_ab H)].
Defined.

(** C7: a backspace at head 0, an undo on an empty undo stack and a redo on
    an empty redo stack each report their error and hand back the very
    same editor: tape, head, mode, state and both stacks are untouched, so
    no checkpoint was taken. *)
Theorem refused_operations_change_nothing (ed : TuringEditor) :
  (head ed = 0 -> backspace ed = (ed, Ret NothingToDelete)) /\
  (undo_stack ed = [] -> undo ed = (ed, Ret NothingToUndo)) /\
  (redo_stack ed = [] -> redo ed = (ed, Ret NothingToRedo)).
Proof.
  split; [apply backspace_at_start | split; [apply undo_empty | apply redo_empty]].
Qed.

Lemma refused_operations_change_nothing_witness :
  (head (init 300) = 0 /\ undo_stack (init 300) = [] /\ redo_stack (init 300) = []) /\
  backspace (init 300) = (init 300, Ret NothingToDelete) /\
  undo (init 300) = (init 300, Ret NothingToUndo) /\
  redo (init 300) = (init 300, Ret NothingToRedo).
Proof.
  assert (Hh : head (init 300) = 0) by reflexivity.
  assert (Hu : undo_stack (init 300) = []) by reflexivity.
  assert (Hr : redo_stack (init 300) = []) by reflexivity.
  split; [repeat split; assumption|].
  destruct (refused_operations_change_nothing (init 300)) as (B & U & R).
  split; [exact (B Hh) | split; [exact (U Hu) | exact (R Hr)]].
Defined.

(** ** Redo history after an edit *)

Lemma clear_redo_then_ret {A} (a b : A) ed ed' :
  (clear_redo ;; ret a) ed = (ed', Ret b) -> redo_stack ed' = [].
Proof.
  unfold bind, clear_redo, modify, ret. intro H. now inversion H.
Qed.

Lemma type_text_clears_redo text ed ed' r :
  text <> EmptyString -> type_text text ed = (ed', Ret r) -> redo_stack ed' = [].
Proof.
  intros Hne H. rewrite (type_text_nonempty text ed Hne) in H.
  do 2 (apply bind_ret_inv in H; destruct H as (? & ? & _ & H)).
  exact (clear_redo_then_ret _ _ _ _ H).
Qed.

Lemma backspace_clears_redo ed ed' r :
  head ed <> 0 -> backspace ed = (ed', Ret r) -> redo_stack ed' = [].
Proof.
  intros Hne H. rewrite (backspace_away ed Hne) in H.
  do 5 (apply bind_ret_inv in H; destruct H as (? & ? & _ & H)).
  exact (clear_redo_then_ret _ _ _ _ H).
Qed.

(** C8: when typing a non-empty text, or a backspace away from position 0,
    runs to completion, the redo stack is empty afterwards, and a redo
    issued next is refused with NothingToRedo. *)
Theorem redo_refused_after_edit (ed ed' : TuringEditor) (r : report) :
  (exists text, text <> EmptyString /\ type_text text ed = (ed', Ret r)) \/
  (head ed <> 0 /\ backspace ed = (ed', Ret r)) ->
  redo_stack ed' = [] /\ redo ed' = (ed', Ret NothingToRedo).
Proof.
  intro H.
  assert (E : redo_stack ed' = []).
  { destruct H as [(text & Hne & H)|(Hne & H)].
    - exact (type_text_clears_redo text ed ed' r Hne H).
    - exact (backspace_clears_redo ed ed' r Hne H). }
  split; [exact E | exact (redo_empty ed' E)].
Qed.

Lemma redo_refused_after_edit_witness :
  redo_stack ed_undone <> [] /\
  redo_stack ed_retyped = [] /\ redo ed_retyped = (ed_retyped, Ret NothingToRedo).
Proof.
  split; [discriminate|].
  apply (redo_refused_after_edit ed_undone ed_retyped Done).
  left. exists "c"%string. split; [discriminate | reflexivity].
Defined.

(** C9: on every editor, [clear_all] and [replace_text] push their
    checkpoint on the undo stack and leave the redo stack exactly as it
    was, whereas they do write the tape ([clear_all] blanks every slot). *)
Theorem clear_and_replace_keep_redo (ed : TuringEditor) (old new : string) :
  (redo_stack (fst (clear_all ed)) = redo_stack ed /\
   undo_stack (fst (clear_all ed)) = push_bounded (triple ed) (undo_stack ed) /\
   tape (fst (clear_all ed)) = Py.times blank (Py.len (tape ed))) /\
  (redo_stack (fst (replace_text old new ed)) = redo_stack ed /\
   undo_stack (fst (replace_text old new ed)) =
     push_bounded (triple ed) (undo_stack ed)).
Proof.
  split.
  - unfold clear_all. rewrite bind_save_state.
    split; [reflexivity | split; reflexivity].
  - split.
    + assert (P : preserves redo_stack (replace_text old new))
        by (unfold replace_text; frame).
      apply P.
    + exact (edit_checkpoints (EReplace old new) ed I).
Qed.

(** ** Derived text *)

Lemma get_text_no_trailing_blank ed r : get_text ed <> r ++ [blank].
Proof. apply rstrip_last. Qed.

(** C10: the blank is the character '_' itself.  On a fresh default editor,
    in insert mode, typing "a_" puts 'a' and '_' in the first two slots of
    the tape, yet [get_text] answers "a": the typed '_' is lost.  No editor
    at all can yield a text that ends in '_'. *)
Theorem typed_trailing_underscore_is_dropped :
  mode (init 300) = insert /\
  snd (type_text "a_" (init 300)) = Ret Done /\
  firstn 2 (tape (fst (type_text "a_" (init 300)))) = list_ascii_of_string "a_" /\
  get_text (fst (type_text "a_" (init 300))) = list_ascii_of_string "a" /\
  (forall ed r, get_text ed <> r ++ [blank]).
Proof.
  split; [reflexivity|].
  split; [vm_compute; reflexivity|].
  split; [vm_compute; reflexivity|].
  split; [vm_compute; reflexivity|].
  exact get_text_no_trailing_blank.
Qed.

(** ** Where the source leaves its bounds unchecked *)

(** C3: the head is not clamped.  On the default editor of capacity 300,
    typing 300 letters in insert mode completes and leaves the head at 300,
    one past the last slot 299; loading a file of 300 letters does the
    same.  Both editors are reachable. *)
Theorem head_runs_past_last_slot :
  (reachable 300 (after (CType (letters 300)) (init 300)) /\
   snd (type_text (letters 300) (init 300)) = Ret Done /\
   Py.len (tape (after (CType (letters 300)) (init 300))) = 300 /\
   head (after (CType (letters 300)) (init 300)) = 300) /\
  (reachable 300 (after (CLoad (Some (letters 300))) (init 300)) /\
   snd (load_from_file (Some (letters 300)) (init 300)) = Ret Done /\
   Py.len (tape (after (CLoad (Some (letters 300))) (init 300))) = 300 /\
   head (after (CLoad (Some (letters 300))) (init 300)) = 300).
Proof.
  split; (split; [apply reach_step, reach_init|]); vm_compute; repeat split.
Qed.

(** C4: loading resizes the tape.  On the default editor of capacity 300,
    loading a file of 301 letters completes and leaves a tape of 301
    slots, on a reachable editor. *)
Theorem load_grows_tape :
  reachable 300 (after (CLoad (Some (letters 301))) (init 300)) /\
  Py.len (tape (init 300)) = 300 /\
  snd (load_from_file (Some (letters 301)) (init 300)) = Ret Done /\
  Py.len (tape (after (CLoad (Some (letters 301))) (init 300))) = 301.
Proof.
  split; [apply reach_step, reach_init|]. vm_compute. repeat split.
Qed.

(** C5: typing and replacing can raise.  On the default editor of capacity
    300 switched to overwrite mode, typing 301 letters raises IndexError at
    the last letter, after the checkpoint was pushed and 300 slots were
    written; on the default editor holding the text "a", replacing "a" by
    301 letters raises IndexError as well. *)
Theorem type_and_replace_can_raise :
  (mode (after CMode (init 300)) = overwrite /\
   snd (type_text (letters 301) (after CMode (init 300))) = Raise IndexError /\
   head (fst (type_text (letters 301) (after CMode (init 300)))) = 300 /\
   Py.len (undo_stack (fst (type_text (letters 301) (after CMode (init 300))))) = 1) /\
  (get_text (after (CType "a") (init 300)) = list_ascii_of_string "a" /\
   snd (replace_text "a" (letters 301) (after (CType "a") (init 300)))
   = Raise IndexError).
Proof.
  split; vm_compute; repeat split.
Qed.

(** C6: the push made by [redo] is not bounded.  Type "a", undo it, clear
    300 times (each clear checkpoints and keeps the redo entry), then redo:
    the undo stack of the default editor, full at 300 before the redo,
    holds 301 snapshots after it. *)
Theorem redo_overfills_undo_stack :
  reachable 300
    (run ([CType "a"; CUndo] ++ repeat CClear 300 ++ [CRedo]) (init 300)) /\
  Py.len (undo_stack (run ([CType "a"; CUndo] ++ repeat CClear 300) (init 300)))
  = 300 /\
  snd (redo (run ([CType "a"; CUndo] ++ repeat CClear 300) (init 300))) = Ret Done /\
  Py.len (undo_stack
            (run ([CType "a"; CUndo] ++ repeat CClear 300 ++ [CRedo]) (init 300)))
  = 301.
Proof.
  split; [apply run_reachable|]. vm_compute. repeat split.
Qed.

(** A backspace away from position 0 can raise as well, once the head has
    run past the tape: on three slots, type "abcde" and "x", undo, then
    backspace.  The checkpoint is pushed, the head moves to 4, the read of
    slot 4 raises, and the redo entry is still there. *)
Example backspace_can_raise :
  head (run [CType "abcde"; CType "x"; CUndo] (init 3)) = 5 /\
  snd (backspace (run [CType "abcde"; CType "x"; CUndo] (init 3)))
  = Raise IndexError /\
  head (run [CType "abcde"; CType "x"; CUndo; CDel] (init 3)) = 4 /\
  Py.len (redo_stack (run [CType "abcde"; CType "x"; CUndo; CDel] (init 3))) = 1.
Proof. vm_compute. repeat split. Qed.

(** ** The tape keeps its length under every method but loading *)

Lemma write_slot_tape_len i c : preserves tape_len (write_slot i c).
Proof.
  intro ed. unfold write_slot, bind, get, lift, modify, tape_len.
  destruct (Py.setitem (tape ed) i c) as [t|] eqn:E; simpl; [|reflexivity].
  exact (len_setitem _ _ _ _ E).
Qed.

Lemma insert_pop_tape_len i c :
  preserves tape_len (tape_insert i c ;; tape_pop ;; ret tt).
Proof.
  intro ed. unfold tape_insert, tape_pop, bind, get, lift, modify, ret, tape_len.
  simpl.
  destruct (Py.pop (Py.insert (tape ed) i c)) as [[t x]|] eqn:E; simpl.
  - apply pop_len in E. rewrite len_insert in E. lia.
  - now apply pop_insert in E.
Qed.

Lemma type_symbol_tape_len ch : preserves tape_len (type_symbol ch).
Proof.
  unfold type_symbol.
  apply preserves_bind; [apply preserves_get | intro ed].
  apply preserves_bind; [|intros _; apply preserves_modify; reflexivity].
  destruct (mode ed); [apply insert_pop_tape_len | apply write_slot_tape_len].
Qed.

Lemma type_text_tape_len text : preserves tape_len (type_text text).
Proof.
  unfold type_text. destruct text as [|c text]; [apply preserves_ret|].
  apply preserves_bind; [apply save_state_preserves; reflexivity | intros _].
  apply preserves_bind; [apply preserves_modify; reflexivity | intros _].
  apply preserves_bind; [|intros _; frame].
  apply preserves_for_each. exact type_symbol_tape_len.
Qed.

Lemma backspace_tape_len : preserves tape_len backspace.
Proof.
  intro ed. destruct (Z.eq_dec (head ed) 0) as [E|N].
  - now rewrite backspace_at_start.
  - rewrite (backspace_away ed N).
    match goal with
    | |- tape_len (fst (?k ?s)) = _ =>
        assert (P : preserves tape_len k); [|now rewrite P]
    end.
    apply preserves_bind; [apply preserves_modify; reflexivity | intros _].
    apply preserves_bind; [apply preserves_modify; reflexivity | intros _].
    apply preserves_bind; [apply preserves_get | intro ed1].
    apply preserves_bind; [unfold read_slot; frame | intro d].
    apply preserves_bind; [apply write_slot_tape_len | intros _].
    frame.
Qed.

Lemma clear_all_tape_len : preserves tape_len clear_all.
Proof.
  intro ed. unfold clear_all. rewrite bind_save_state. unfold tape_len. simpl.
  apply len_times, len_nonneg.
Qed.

Lemma replace_text_tape_len old new : preserves tape_len (replace_text old new).
Proof.
  unfold replace_text.
  apply preserves_bind; [apply save_state_preserves; reflexivity | intros _].
  apply preserves_bind; [apply preserves_get | intro ed0].
  apply preserves_bind;
    [apply preserves_for_each; intro; apply write_slot_tape_len | intros _].
  apply preserves_bind; [apply preserves_get | intro ed1].
  apply preserves_bind;
    [apply preserves_for_each; intro; apply write_slot_tape_len | intros _].
  apply preserves_ret.
Qed.

Lemma load_tape_len s ed :
  Py.len (list_ascii_of_string s) <= tape_len ed ->
  tape_len (fst (load_from_file (Some s) ed)) = tape_len ed.
Proof.
  intro H. unfold load_from_file. rewrite bind_save_state.
  unfold tape_len in *. simpl. rewrite len_app, len_times; lia.
Qed.

Lemma tape_len_after c ed :
  c <> CUndo -> c <> CRedo -> within (tape_len ed) c ->
  tape_len (after c ed) = tape_len ed.
Proof.
  intros NU NR Hw. unfold after.
  destruct c as [text| | | | | | | | |old new| |content]; simpl; try congruence.
  - apply type_text_tape_len.
  - apply backspace_tape_len.
  - assert (P : preserves tape_len move_left) by (unfold move_left; frame). apply P.
  - assert (P : preserves tape_len move_right) by (unfold move_right; frame). apply P.
  - reflexivity.
  - reflexivity.
  - reflexivity.
  - apply replace_text_tape_len.
  - apply clear_all_tape_len.
  - destruct content as [s|]; [|reflexivity]. now apply load_tape_len.
Qed.

(** ** What a command does to the two stacks *)

Lemma command_is_history c : (c = CUndo \/ c = CRedo) \/ (c <> CUndo /\ c <> CRedo).
Proof. destruct c; try (right; split; discriminate); left; auto. Qed.

Lemma command_eq_del c : c = CDel \/ c <> CDel.
Proof. destruct c; try (right; discriminate); now left. Qed.

Lemma command_eq_right c : c = CRight \/ c <> CRight.
Proof. destruct c; try (right; discriminate); now left. Qed.

Lemma undo_stack_after c ed :
  c <> CUndo -> c <> CRedo ->
  undo_stack (after c ed) = undo_stack ed \/
  undo_stack (after c ed) = push_bounded (triple ed) (undo_stack ed).
Proof.
  intros NU NR. unfold after.
  destruct c as [text| | | | | | | | |old new| |content]; simpl; try congruence.
  - destruct text as [|ch text]; [now left|].
    right. apply (edit_checkpoints (EType (String ch text))). simpl. congruence.
  - destruct (Z.eq_dec (head ed) 0) as [E|N].
    + left. now rewrite backspace_at_start.
    + right. exact (edit_checkpoints EBackspace ed N).
  - left. assert (P : preserves undo_stack move_left) by (unfold move_left; frame).
    apply P.
  - left. assert (P : preserves undo_stack move_right) by (unfold move_right; frame).
    apply P.
  - left. reflexivity.
  - left. reflexivity.
  - left. reflexivity.
  - right. exact (edit_checkpoints (EReplace old new) ed I).
  - right. exact (edit_checkpoints EClearAll ed I).
  - destruct content as [s|]; [right | now left].
    unfold load_from_file. now rewrite bind_save_state.
Qed.

Lemma redo_stack_after c ed :
  c <> CUndo -> c <> CRedo ->
  redo_stack (after c ed) = redo_stack ed \/ redo_stack (after c ed) = [].
Proof.
  intros NU NR. unfold after.
  assert (K : keeps
    (fun ed' => redo_stack ed' = redo_stack ed \/ redo_stack ed' = []) (exec c)).
  { destruct c as [text| | | | | | | | |old new| |content]; simpl; try congruence;
      [ unfold type_text, type_symbol | unfold backspace | unfold move_left
      | unfold move_right | unfold move_start | unfold move_end
      | unfold toggle_mode | unfold replace_text | unfold clear_all
      | unfold load_from_file ];
      keep; solve [ assumption | now right ]. }
  exact (K ed (or_introl eq_refl)).
Qed.

(** ** Editors whose live triple and stored snapshots all satisfy [S] *)

Section WellFormed.
Context (S : snapshot -> Prop).

Lemma Forall_tl (l : list snapshot) : Forall S l -> Forall S (tl l).
Proof. intro H. destruct H; simpl; auto. Qed.

Lemma Forall_push_bounded s u : S s -> Forall S u -> Forall S (push_bounded s u).
Proof.
  intros Hs Hu. assert (H : Forall S (u ++ [s])) by (apply Forall_app; auto).
  unfold push_bounded. destruct (_ >? _); [now apply Forall_tl | exact H].
Qed.

Lemma undo_well_formed ed : well_formed S ed -> well_formed S (fst (undo ed)).
Proof.
  intros (Ht & Hu & Hr).
  destruct (undo_stack ed) as [|s0 u0] eqn:E.
  - rewrite (undo_empty ed E). simpl. repeat split; auto. now rewrite E.
  - assert (Hne : undo_stack ed <> []) by (rewrite E; discriminate).
    destruct (nonempty_top _ Hne) as (u & s & Eu).
    rewrite <- E, Eu in Hu. apply Forall_app in Hu. destruct Hu as [Hu Hs].
    rewrite (undo_top ed u s Eu). unfold well_formed. cbn [fst].
    rewrite triple_restore. destruct s as [[t h] m]. simpl.
    split; [now inversion Hs | split; [exact Hu | apply Forall_app; auto]].
Qed.

Lemma redo_well_formed ed : well_formed S ed -> well_formed S (fst (redo ed)).
Proof.
  intros (Ht & Hu & Hr).
  destruct (redo_stack ed) as [|s0 r0] eqn:E.
  - rewrite (redo_empty ed E). simpl. repeat split; auto. now rewrite E.
  - assert (Hne : redo_stack ed <> []) by (rewrite E; discriminate).
    destruct (nonempty_top _ Hne) as (r & s & Er).
    rewrite <- E, Er in Hr. apply Forall_app in Hr. destruct Hr as [Hr Hs].
    rewrite (redo_top ed r s Er). unfold well_formed. cbn [fst].
    rewrite triple_restore. destruct s as [[t h] m]. simpl.
    split; [now inversion Hs | split; [apply Forall_app; auto | exact Hr]].
Qed.

Lemma command_well_formed c ed :
  well_formed S ed ->
  (c <> CUndo -> c <> CRedo -> S (triple (after c ed))) ->
  well_formed S (after c ed).
Proof.
  intros W Ht.
  destruct (command_is_history c) as [[E|E]|[NU NR]].
  - subst c. now apply undo_well_formed.
  - subst c. now apply redo_well_formed.
  - destruct W as (Hs & Hu & Hr). split; [now apply Ht|]. split.
    + destruct (undo_stack_after c ed NU NR) as [E|E]; rewrite E; auto.
      now apply Forall_push_bounded.
    + destruct (redo_stack_after c ed NU NR) as [E|E]; rewrite E; auto.
Qed.

End WellFormed.

(** X19: apart from a load of more characters than the tape has slots, no
    command changes the length of the tape: when the tape and every stored
    snapshot have [n] slots before a command, they do after it. *)
Theorem tape_length_kept n c ed :
  within n c ->
  well_formed (has_length n) ed -> well_formed (has_length n) (after c ed).
Proof.
  intros Hw W. apply command_well_formed; [exact W|].
  intros NU NR. destruct W as (Ht & _). unfold has_length in *. simpl in *.
  fold (tape_len (after c ed)). rewrite tape_len_after; auto.
  unfold tape_len. now rewrite Ht.
Qed.

(** X20: the undo stack stays within its bound of 300 under every command
    except redo. *)
Theorem undo_depth_kept_without_redo c ed :
  c <> CRedo ->
  Py.len (undo_stack ed) <= undo_bound ->
  Py.len (undo_stack (after c ed)) <= undo_bound.
Proof.
  intros NR H.
  destruct (command_is_history c) as [[E|E]|[NU _]]; [|congruence|].
  - subst c. unfold after. simpl.
    destruct (undo_stack ed) as [|s0 u0] eqn:E.
    + rewrite (undo_empty ed E). simpl. now rewrite E.
    + assert (Hne : undo_stack ed <> []) by (rewrite E; discriminate).
      destruct (nonempty_top _ Hne) as (u & s & Eu).
      rewrite (undo_top ed u s Eu). destruct s as [[t h] m]. simpl.
      rewrite <- E, Eu, len_app in H. unfold Py.len in *. simpl in H. lia.
  - destruct (undo_stack_after c ed NU NR) as [E|E]; rewrite E; auto.
    now apply push_bounded_len.
Qed.

(** ** Where the head goes *)

Lemma backspace_head ed :
  head (fst (backspace ed)) = if head ed =? 0 then head ed else head ed - 1.
Proof.
  destruct (Z.eqb_spec (head ed) 0) as [E|N].
  - now rewrite backspace_at_start.
  - rewrite (backspace_away ed N).
    unfold read_slot, write_slot, clear_redo, bind, get, lift, modify. simpl.
    destruct (Py.getitem (tape ed) (head ed - 1)); simpl; [|reflexivity].
    destruct (Py.setitem (tape ed) (head ed - 1) blank); reflexivity.
Qed.

Lemma move_left_head ed :
  head (fst (move_left ed)) = if head ed >? 0 then head ed - 1 else head ed.
Proof.
  unfold move_left, bind, get, modify. simpl.
  destruct (head ed >? 0); reflexivity.
Qed.

Lemma move_right_head ed :
  head (fst (move_right ed)) =
  if head ed <? Py.len (tape ed) - 1 then head ed + 1 else head ed.
Proof.
  unfold move_right, bind, get, modify. simpl.
  destruct (head ed <? Py.len (tape ed) - 1); reflexivity.
Qed.

Lemma type_symbol_head ch ed :
  head ed <= head (fst (type_symbol ch ed)) <= head ed + 1.
Proof.
  unfold type_symbol, tape_insert, tape_pop, write_slot, bind, get, lift, modify, ret.
  destruct (mode ed); simpl.
  - destruct (Py.pop (Py.insert (tape ed) (head ed) ch)); simpl; lia.
  - destruct (Py.setitem (tape ed) (head ed) ch); simpl; lia.
Qed.

Lemma type_loop_head l : forall ed,
  head ed <= head (fst (for_each l type_symbol ed)) <= head ed + Py.len l.
Proof.
  induction l as [|ch l IH]; intro ed.
  - unfold Py.len. simpl. lia.
  - pose proof (type_symbol_head ch ed) as H1. rewrite len_cons.
    cbn [for_each]. unfold bind.
    destruct (type_symbol ch ed) as [ed1 [[]|e]]; cbn [fst] in *.
    + specialize (IH ed1). lia.
    + pose proof (len_nonneg l). lia.
Qed.

Lemma type_text_head text ed :
  head ed <= head (fst (type_text text ed)) <=
  head ed + Py.len (list_ascii_of_string text).
Proof.
  destruct (string_dec text EmptyString) as [E|N].
  - subst text. unfold Py.len. simpl. lia.
  - rewrite (type_text_nonempty text ed N).
    unfold bind, modify, clear_redo, ret.
    pose proof (type_loop_head (list_ascii_of_string text)
      (set_state "Typing"
         (set_undo_stack (push_bounded (triple ed) (undo_stack ed)) ed))) as H.
    destruct (for_each _ type_symbol _) as [ed1 [[]|e]]; simpl in *; exact H.
Qed.

Lemma last_nonblank_le t : last_nonblank t <= Py.len t - 1.
Proof.
  unfold last_nonblank. apply max_default_le; [pose proof (len_nonneg t); lia|].
  apply Forall_map, Forall_forall. intros [i x] H.
  apply filter_In in H. destruct H as [H _]. apply enumerate_index in H. simpl. lia.
Qed.

Lemma replace_text_head old new : preserves head (replace_text old new).
Proof. unfold replace_text. frame. Qed.

Lemma head_nonneg_after c ed :
  c <> CUndo -> c <> CRedo -> 0 <= head ed -> 0 <= head (after c ed).
Proof.
  intros NU NR H. unfold after.
  destruct c as [text| | | | | | | | |old new| |content];
    cbn [exec] in *; try congruence.
  - pose proof (type_text_head text ed). lia.
  - rewrite backspace_head. destruct (Z.eqb_spec (head ed) 0); lia.
  - rewrite move_left_head. destruct (Z.gtb_spec (head ed) 0); lia.
  - rewrite move_right_head. destruct (head ed <? Py.len (tape ed) - 1); lia.
  - change (head (fst (move_start ed))) with 0. lia.
  - change (head (fst (move_end ed))) with (_visible_length ed - 1).
    unfold _visible_length. lia.
  - exact H.
  - now rewrite replace_text_head.
  - unfold clear_all. rewrite bind_save_state. change (0 <= 0). lia.
  - destruct content as [s|]; [|exact H].
    unfold load_from_file. rewrite bind_save_state.
    apply (len_nonneg (list_ascii_of_string s)).
Qed.

(** The head never becomes negative, on the live editor and in every
    stored snapshot, so that no subscript of the source ever counts from
    the end of the tape. *)
Theorem head_nonneg_kept c ed :
  well_formed head_nonneg ed -> well_formed head_nonneg (after c ed).
Proof.
  intro W. apply command_well_formed; [exact W|].
  intros NU NR. destruct W as (Ht & _). now apply head_nonneg_after.
Qed.

(** X21: on every editor the driver can reach, whatever the capacity and
    whatever the commands, failed ones included, the head is not negative:
    no subscript of the source ever counts from the end of the tape. *)
Corollary reachable_head_nonneg n ed : reachable n ed -> 0 <= head ed.
Proof.
  intro R. enough (W : well_formed head_nonneg ed) by apply W.
  induction R as [|c ed R IH].
  - repeat split; simpl; auto. unfold head_nonneg. simpl. lia.
  - now apply head_nonneg_kept.
Qed.

Lemma stays_inside_within ed c : stays_inside ed c -> within (tape_len ed) c.
Proof.
  destruct c as [text| | | | | | | | |old new| |content]; simpl; auto.
  destruct content; [lia | auto].
Qed.

Lemma head_after c ed :
  c <> CUndo -> c <> CRedo -> stays_inside ed c ->
  0 <= head ed <= tape_len ed - 1 ->
  0 <= head (after c ed) <= tape_len ed - 1.
Proof.
  intros NU NR Hs H.
  split; [apply head_nonneg_after; tauto|]. unfold after.
  destruct c as [text| | | | | | | | |old new| |content];
    cbn [exec stays_inside] in *; try congruence.
  - pose proof (type_text_head text ed). lia.
  - rewrite backspace_head. destruct (Z.eqb_spec (head ed) 0); lia.
  - rewrite move_left_head. destruct (Z.gtb_spec (head ed) 0); lia.
  - rewrite move_right_head. unfold tape_len in *.
    destruct (Z.ltb_spec (head ed) (Py.len (tape ed) - 1)); lia.
  - change (head (fst (move_start ed))) with 0. lia.
  - change (head (fst (move_end ed))) with (_visible_length ed - 1).
    unfold _visible_length. pose proof (last_nonblank_le (tape ed)).
    unfold tape_len in *. lia.
  - tauto.
  - rewrite replace_text_head. tauto.
  - unfold clear_all. rewrite bind_save_state.
    change (0 <= tape_len ed - 1). lia.
  - destruct content as [s|]; [|tauto].
    unfold load_from_file. rewrite bind_save_state. exact Hs.
Qed.

(** X22: when the head of the live editor and of every stored snapshot
    lies in [0, len(tape) - 1], it still does after any command that does
    not type or load past the last slot. *)
Theorem head_in_range_kept c ed :
  stays_inside ed c ->
  well_formed in_range ed -> well_formed in_range (after c ed).
Proof.
  intros Hs W. apply command_well_formed; [exact W|].
  intros NU NR. destruct W as (Ht & _). unfold in_range in *. simpl in *.
  fold (tape_len (after c ed)). fold (tape_len ed) in Ht.
  rewrite (tape_len_after c ed NU NR (stays_inside_within ed c Hs)).
  now apply head_after.
Qed.

(** ** Which methods cannot raise *)

Lemma type_symbol_insert ch ed :
  mode ed = insert ->
  exists t, type_symbol ch ed = (set_head (head ed + 1) (set_tape t ed), Ret tt).
Proof.
  intro Hm.
  unfold type_symbol, tape_insert, tape_pop, bind, get, lift, modify, ret.
  rewrite Hm. simpl.
  destruct (Py.pop (Py.insert (tape ed) (head ed) ch)) as [[t x]|] eqn:E.
  - now exists t.
  - now apply pop_insert in E.
Qed.

Lemma type_symbol_overwrite ch ed :
  mode ed = overwrite -> 0 <= head ed < tape_len ed ->
  exists t,
    type_symbol ch ed = (set_head (head ed + 1) (set_tape t ed), Ret tt) /\
    Py.len t = tape_len ed.
Proof.
  intros Hm Hh.
  destruct (setitem_inside (tape ed) (head ed) ch Hh) as [t E].
  exists t. split; [|exact (len_setitem _ _ _ _ E)].
  unfold type_symbol, write_slot, bind, get, lift, modify, ret.
  rewrite Hm. simpl. now rewrite E.
Qed.

Lemma set_head_add ed t1 t2 a b :
  set_head (head (set_head a (set_tape t1 ed)) + b)
    (set_tape t2 (set_head a (set_tape t1 ed))) =
  set_head (a + b) (set_tape t2 ed).
Proof. reflexivity. Qed.

Lemma type_loop_insert l : forall ed,
  mode ed = insert ->
  exists t,
    for_each l type_symbol ed =
    (set_head (head ed + Py.len l) (set_tape t ed), Ret tt).
Proof.
  induction l as [|ch l IH]; intros ed Hm.
  - exists (tape ed). destruct ed. unfold Py.len, set_head, set_tape. simpl.
    now rewrite Z.add_0_r.
  - destruct (type_symbol_insert ch ed Hm) as [t1 E1].
    destruct (IH (set_head (head ed + 1) (set_tape t1 ed)) Hm) as [t2 E2].
    exists t2. cbn [for_each]. unfold bind. rewrite E1, E2, set_head_add, len_cons.
    now rewrite Z.add_assoc.
Qed.

Lemma type_loop_overwrite l : forall ed,
  mode ed = overwrite -> 0 <= head ed -> head ed + Py.len l <= tape_len ed ->
  exists t,
    for_each l type_symbol ed =
    (set_head (head ed + Py.len l) (set_tape t ed), Ret tt).
Proof.
  induction l as [|ch l IH]; intros ed Hm H0 Hl.
  - exists (tape ed). destruct ed. unfold Py.len, set_head, set_tape. simpl.
    now rewrite Z.add_0_r.
  - rewrite len_cons in Hl. pose proof (len_nonneg l) as Hn.
    destruct (type_symbol_overwrite ch ed Hm) as (t1 & E1 & L1); [lia|].
    destruct (IH (set_head (head ed + 1) (set_tape t1 ed)) Hm) as [t2 E2];
      [simpl; lia | unfold tape_len in *; simpl; lia |].
    exists t2. cbn [for_each]. unfold bind. rewrite E1, E2, set_head_add, len_cons.
    now rewrite Z.add_assoc.
Qed.

Lemma type_text_completes text ed :
  (forall s, mode s = mode ed -> head s = head ed -> tape_len s = tape_len ed ->
     exists t, for_each (list_ascii_of_string text) type_symbol s =
               (set_head (head s + Py.len (list_ascii_of_string text))
                  (set_tape t s), Ret tt)) ->
  snd (type_text text ed) = Ret Done /\
  head (fst (type_text text ed)) = head ed + Py.len (list_ascii_of_string text).
Proof.
  intro Hloop. destruct (string_dec text EmptyString) as [E|N].
  - subst text. unfold Py.len. simpl. split; [reflexivity | lia].
  - rewrite (type_text_nonempty text ed N).
    destruct (Hloop
                (set_state "Typing"
                   (set_undo_stack (push_bounded (triple ed) (undo_stack ed)) ed))
                eq_refl eq_refl eq_refl) as [t E].
    unfold bind, modify, clear_redo, ret. rewrite E.
    split; reflexivity.
Qed.

(** In insert mode [type_text] completes whatever the text and the head,
    and moves the head forward by the length of the text, without any
    clamping. *)
Theorem type_text_insert_total text ed :
  mode ed = insert ->
  snd (type_text text ed) = Ret Done /\
  head (fst (type_text text ed)) = head ed + Py.len (list_ascii_of_string text).
Proof.
  intro Hm. apply type_text_completes. intros s Hs _ _.
  apply type_loop_insert. congruence.
Qed.

(** In overwrite mode [type_text] completes as long as the text ends on
    the tape. *)
Theorem type_text_overwrite_total text ed :
  mode ed = overwrite -> 0 <= head ed ->
  head ed + Py.len (list_ascii_of_string text) <= tape_len ed ->
  snd (type_text text ed) = Ret Done /\
  head (fst (type_text text ed)) = head ed + Py.len (list_ascii_of_string text).
Proof.
  intros Hm H0 Hl. apply type_text_completes. intros s Hs Hh Ht.
  apply type_loop_overwrite; [congruence | lia | lia].
Qed.

Lemma write_loop_total (l : list (Z * ascii)) : forall ed,
  Forall (fun p => 0 <= fst p < tape_len ed) l ->
  exists t,
    for_each l (fun p => write_slot (fst p) (snd p)) ed = (set_tape t ed, Ret tt) /\
    Py.len t = tape_len ed.
Proof.
  induction l as [|[i c] l IH]; intros ed H.
  - exists (tape ed). split; [now destruct ed | reflexivity].
  - inversion H as [|? ? Hi Hl]; subst. simpl in Hi.
    destruct (setitem_inside (tape ed) i c Hi) as [t1 E1].
    pose proof (len_setitem _ _ _ _ E1) as L1.
    destruct (IH (set_tape t1 ed)) as (t2 & E2 & L2).
    { unfold tape_len in *. simpl. now rewrite L1. }
    exists t2. split; [|unfold tape_len in *; simpl in L2; lia].
    cbn [for_each]. unfold bind at 1.
    replace (write_slot (fst (i, c)) (snd (i, c)) ed) with (set_tape t1 ed, Ret tt).
    + now rewrite E2.
    + unfold write_slot, bind, get, lift, modify. simpl. now rewrite E1.
Qed.

Lemma blank_loop_total (l : list Z) : forall ed,
  Forall (fun j => 0 <= j < tape_len ed) l ->
  exists t,
    for_each l (fun j => write_slot j blank) ed = (set_tape t ed, Ret tt) /\
    Py.len t = tape_len ed.
Proof.
  induction l as [|j l IH]; intros ed H.
  - exists (tape ed). split; [now destruct ed | reflexivity].
  - inversion H as [|? ? Hj Hl]; subst.
    destruct (setitem_inside (tape ed) j blank Hj) as [t1 E1].
    pose proof (len_setitem _ _ _ _ E1) as L1.
    destruct (IH (set_tape t1 ed)) as (t2 & E2 & L2).
    { unfold tape_len in *. simpl. now rewrite L1. }
    exists t2. split; [|unfold tape_len in *; simpl in L2; lia].
    cbn [for_each]. unfold bind at 1.
    replace (write_slot j blank ed) with (set_tape t1 ed, Ret tt).
    + now rewrite E2.
    + unfold write_slot, bind, get, lift, modify. simpl. now rewrite E1.
Qed.

(** [replace_text] completes as long as the replaced text is no longer
    than the tape. *)
Theorem replace_text_total_when_fits old new ed :
  Py.len (Py.replace (get_text ed)
            (list_ascii_of_string old) (list_ascii_of_string new)) <= tape_len ed ->
  snd (replace_text old new ed) = Ret Done.
Proof.
  intro Hfit. unfold replace_text. rewrite bind_save_state.
  set (ed1 := set_undo_stack _ ed).
  unfold bind at 1. unfold get at 1.
  change (get_text ed1) with (get_text ed).
  set (text := Py.replace _ _ _) in *.
  destruct (write_loop_total (Py.enumerate text) ed1) as (t1 & E1 & L1).
  { apply Forall_forall. intros [i c] Hin. apply enumerate_index in Hin.
    change (tape_len ed1) with (tape_len ed). simpl. lia. }
  unfold bind at 1. rewrite E1. unfold bind at 1. unfold get at 1.
  destruct (blank_loop_total
              (Py.range (Py.len text) (Py.len (tape (set_tape t1 ed1))))
              (set_tape t1 ed1)) as (t2 & E2 & L2).
  { apply Forall_forall. intros j Hin. apply range_index in Hin.
    pose proof (len_nonneg text). unfold tape_len. lia. }
  unfold bind. now rewrite E2.
Qed.


(** * Further properties *)

(** ** The text is the tape without its trailing blanks *)

Lemma rstrip_snoc_same s c : Py.rstrip (s ++ [c]) c = Py.rstrip s c.
Proof.
  unfold Py.rstrip. rewrite rev_app_distr. simpl. now rewrite Ascii.eqb_refl.
Qed.

Lemma rstrip_snoc_other s c x : x <> c -> Py.rstrip (s ++ [x]) c = s ++ [x].
Proof.
  intro N. unfold Py.rstrip. rewrite rev_app_distr. simpl.
  destruct (Ascii.eqb_spec x c) as [E|_]; [contradiction|].
  simpl. now rewrite rev_involutive.
Qed.

Lemma rstrip_app_repeat s c k : Py.rstrip (s ++ repeat c k) c = Py.rstrip s c.
Proof.
  induction k as [|k IH]; simpl.
  - now rewrite app_nil_r.
  - rewrite repeat_cons, app_assoc, rstrip_snoc_same. exact IH.
Qed.

Lemma rstrip_decomp s c : exists k, s = Py.rstrip s c ++ repeat c k.
Proof.
  induction s as [|x s IH] using rev_ind.
  - now exists O.
  - destruct (Ascii.ascii_dec x c) as [E|N].
    + subst x. destruct IH as [k IH]. exists (S k).
      rewrite rstrip_snoc_same. simpl repeat. rewrite repeat_cons, app_assoc.
      now rewrite <- IH.
    + exists O. rewrite (rstrip_snoc_other s c x N). simpl. now rewrite app_nil_r.
Qed.

Lemma rstrip_idem s c : Py.rstrip (Py.rstrip s c) c = Py.rstrip s c.
Proof.
  destruct (rstrip_decomp s c) as [k E].
  rewrite E at 2. now rewrite rstrip_app_repeat.
Qed.

Lemma firstn_repeat {A} (x : A) m k : firstn m (repeat x k) = repeat x (Nat.min m k).
Proof.
  revert k. induction m as [|m IH]; intros [|k]; simpl; auto. now rewrite IH.
Qed.

Lemma rstrip_firstn s c v :
  (length (Py.rstrip s c) <= v)%nat -> Py.rstrip (firstn v s) c = Py.rstrip s c.
Proof.
  intro H. destruct (rstrip_decomp s c) as [k E].
  remember (Py.rstrip s c) as r eqn:Er.
  rewrite E, firstn_app, (firstn_all2 r H), firstn_repeat, rstrip_app_repeat.
  subst r. apply rstrip_idem.
Qed.

Lemma combine_snoc {A B} (idx : list A) (l : list B) k x :
  length idx = length l ->
  combine (idx ++ [k]) (l ++ [x]) = combine idx l ++ [(k, x)].
Proof.
  revert l. induction idx as [|i idx IH]; intros [|y l] H; simpl in *;
    try discriminate; [reflexivity|].
  f_equal. apply IH. now inversion H.
Qed.

Lemma enumerate_snoc {A} (l : list A) (x : A) :
  Py.enumerate (l ++ [x]) = Py.enumerate l ++ [(Py.len l, x)].
Proof.
  unfold Py.enumerate, Py.len. rewrite length_app. simpl length.
  rewrite seq_app, map_app. simpl.
  apply combine_snoc. now rewrite length_map, length_seq.
Qed.

Lemma max_default_snoc l k d :
  d <= k -> Forall (fun y => y <= k) l -> Py.max_default (l ++ [k]) d = k.
Proof.
  intros Hd Hl. destruct l as [|x r]; simpl; [reflexivity|].
  inversion Hl; subst. rewrite fold_left_app. simpl.
  pose proof (fold_max_le r x k H1 H2). lia.
Qed.

Lemma last_nonblank_rstrip t : last_nonblank t + 1 = Py.len (Py.rstrip t blank).
Proof.
  induction t as [|x t IH] using rev_ind; [reflexivity|].
  unfold last_nonblank in *. rewrite enumerate_snoc, filter_app, map_app. simpl.
  destruct (Ascii.eqb_spec x blank) as [E|N]; simpl.
  - subst x. rewrite app_nil_r, rstrip_snoc_same. exact IH.
  - rewrite (rstrip_snoc_other t blank x N), len_app.
    rewrite max_default_snoc; [unfold Py.len; simpl; lia | pose proof (len_nonneg t); lia |].
    apply Forall_map, Forall_forall. intros [i y] H.
    apply filter_In in H. destruct H as [H _]. apply enumerate_index in H. simpl. lia.
Qed.

Lemma get_text_rstrip ed : get_text ed = Py.rstrip (tape ed) blank.
Proof.
  unfold get_text, Py.slice_to, _visible_length.
  pose proof (last_nonblank_rstrip (tape ed)) as H.
  pose proof (len_nonneg (Py.rstrip (tape ed) blank)) as Hn.
  destruct (Z.ltb_spec (Z.max (last_nonblank (tape ed) + 1) (head ed + 1)) 0); [lia|].
  apply rstrip_firstn. unfold Py.len in *. lia.
Qed.

(** X1: the text of an editor is its whole tape with the trailing blanks
    removed; the head, although [_visible_length] reads it, has no say. *)
Theorem text_is_stripped_tape (ed : TuringEditor) :
  get_text ed = Py.rstrip (tape ed) blank /\
  (forall h, get_text (set_head h ed) = get_text ed).
Proof.
  split; [apply get_text_rstrip|].
  intro h. now rewrite !get_text_rstrip.
Qed.

(** X2: moving the head (left, right, start, end) and switching the mode
    change neither the tape, nor the text, nor either history stack. *)
Theorem motions_keep_text (c : command) (ed : TuringEditor) :
  is_motion c ->
  tape (after c ed) = tape ed /\
  get_text (after c ed) = get_text ed /\
  undo_stack (after c ed) = undo_stack ed /\
  redo_stack (after c ed) = redo_stack ed.
Proof.
  intro Hm.
  assert (T : tape (after c ed) = tape ed).
  { unfold after. destruct c; simpl in Hm; try contradiction; simpl;
      try reflexivity.
    - assert (P : preserves tape move_left) by (unfold move_left; frame). apply P.
    - assert (P : preserves tape move_right) by (unfold move_right; frame). apply P. }
  split; [exact T|]. split; [now rewrite !get_text_rstrip, T|].
  unfold after. destruct c; simpl in Hm; try contradiction; simpl;
    try (split; reflexivity).
  - split.
    + assert (P : preserves undo_stack move_left) by (unfold move_left; frame). apply P.
    + assert (P : preserves redo_stack move_left) by (unfold move_left; frame). apply P.
  - split.
    + assert (P : preserves undo_stack move_right) by (unfold move_right; frame). apply P.
    + assert (P : preserves redo_stack move_right) by (unfold move_right; frame). apply P.
Qed.

Lemma motions_keep_text_witness :
  is_motion CEnd /\
  tape (after CEnd ed_ab) = tape ed_ab /\
  get_text (after CEnd ed_ab) = get_text ed_ab /\
  undo_stack (after CEnd ed_ab) = undo_stack ed_ab /\
  redo_stack (after CEnd ed_ab) = redo_stack ed_ab.
Proof.
  assert (H : is_motion CEnd) by exact I.
  split; [exact H | exact (motions_keep_text CEnd ed_ab H)].
Defined.

(** X3: after a load the text is the loaded content without its trailing
    underscores, whatever the editor and however long the content; hence
    loading what [save_to_file] wrote gives back the saved text, on any
    editor. *)
Theorem load_then_text (s : string) (ed ed' : TuringEditor) :
  get_text (fst (load_from_file (Some s) ed))
  = Py.rstrip (list_ascii_of_string s) blank /\
  get_text (fst (load_from_file (Some (save_to_file ed')) ed)) = get_text ed'.
Proof.
  assert (L : forall s0, get_text (fst (load_from_file (Some s0) ed))
                         = Py.rstrip (list_ascii_of_string s0) blank).
  { intro s0. rewrite get_text_rstrip. unfold load_from_file.
    rewrite bind_save_state. simpl. unfold Py.times. apply rstrip_app_repeat. }
  split; [apply L|].
  rewrite L. unfold save_to_file. rewrite list_ascii_of_string_of_list_ascii.
  rewrite get_text_rstrip. apply rstrip_idem.
Qed.

(** ** What [display_tape] shows *)

(** X4: when the head is on the tape, the strings printed by
    [display_tape] line up: the caret is in column [head] of the cursor
    line, the visible part of the tape reaches that column and shows there
    the slot under the head, and it is never longer than the tape. *)
Theorem caret_under_head (ed : TuringEditor) :
  0 <= head ed < Py.len (tape ed) ->
  nth_error (cursor_line ed) (Z.to_nat (head ed)) = Some "^"%char /\
  nth_error (visible ed) (Z.to_nat (head ed))
  = nth_error (tape ed) (Z.to_nat (head ed)) /\
  (length (visible ed) <= length (tape ed))%nat.
Proof.
  intro H. unfold cursor_line, visible, _visible_length, Py.times, Py.slice_to.
  split.
  { rewrite nth_error_app2; rewrite repeat_length; [|lia].
    now rewrite Nat.sub_diag. }
  destruct (Z.gtb_spec (Z.max (last_nonblank (tape ed) + 1) (head ed + 1)) 0); [|lia].
  destruct (Z.ltb_spec (Z.max (last_nonblank (tape ed) + 1) (head ed + 1)) 0); [lia|].
  split.
  - rewrite nth_error_firstn.
    destruct (Nat.ltb_spec (Z.to_nat (head ed))
                (Z.to_nat (Z.max (last_nonblank (tape ed) + 1) (head ed + 1))));
      [reflexivity | lia].
  - rewrite length_firstn. lia.
Qed.

Lemma caret_under_head_witness :
  0 <= head ed_ab < Py.len (tape ed_ab) /\
  nth_error (cursor_line ed_ab) (Z.to_nat (head ed_ab)) = Some "^"%char /\
  nth_error (visible ed_ab) (Z.to_nat (head ed_ab))
  = nth_error (tape ed_ab) (Z.to_nat (head ed_ab)) /\
  (length (visible ed_ab) <= length (tape ed_ab))%nat.
Proof.
  assert (H : 0 <= head ed_ab < Py.len (tape ed_ab)) by (vm_compute; split; congruence).
  split; [exact H | exact (caret_under_head ed_ab H)].
Defined.

(** ** Typing in closed form *)

Lemma insert_nonneg {A} (l : list A) i x :
  0 <= i ->
  Py.insert l i x = firstn (Z.to_nat i) l ++ x :: skipn (Z.to_nat i) l.
Proof.
  intro H. unfold Py.insert, Py.len.
  destruct (Z.ltb_spec i 0); [lia|].
  destruct (Z.le_gt_cases i (Z.of_nat (length l))) as [L|G].
  - now rewrite Z.min_l.
  - rewrite Z.min_r by lia. rewrite Nat2Z.id.
    rewrite firstn_all, skipn_all.
    rewrite firstn_all2, skipn_all2 by lia. reflexivity.
Qed.

Lemma pop_firstn {A} (l l' : list A) x :
  Py.pop l = Some (l', x) -> l' = firstn (length l - 1) l.
Proof.
  unfold Py.pop. intro H.
  assert (E : l = rev (rev l)) by (symmetry; apply rev_involutive).
  destruct (rev l) as [|y r]; [discriminate|]. inversion H; subst l' x.
  rewrite E. simpl. rewrite length_app. simpl.
  replace (length (rev r) + 1 - 1)%nat with (length (rev r) + 0)%nat by lia.
  rewrite firstn_app_2. simpl. now rewrite app_nil_r.
Qed.

Lemma length_inserted t h w : length (inserted t h w) = length t.
Proof.
  unfold inserted. rewrite length_firstn, !length_app.
  pose proof (firstn_skipn h t) as E. apply (f_equal (@length ascii)) in E.
  rewrite length_app in E. lia.
Qed.

Lemma inserted_nil t h : inserted t h [] = t.
Proof.
  unfold inserted. simpl. rewrite firstn_skipn. apply firstn_all.
Qed.

Lemma inserted_past t h w : (length t <= h)%nat -> inserted t h w = t.
Proof.
  intro H. unfold inserted. rewrite (firstn_all2 t H).
  rewrite firstn_app, firstn_all, Nat.sub_diag. simpl. apply app_nil_r.
Qed.

Lemma inserted_inside t h w :
  (h <= length t)%nat ->
  inserted t h w = firstn h t ++ firstn (length t - h) (w ++ skipn h t).
Proof.
  intro H. unfold inserted.
  replace (length t) with (length (firstn h t) + (length t - h))%nat at 1
    by (rewrite length_firstn; lia).
  apply firstn_app_2.
Qed.

Lemma firstn_exact {A} (a y : list A) k : length a = k -> firstn k (a ++ y) = a.
Proof.
  intros <-. rewrite firstn_app, firstn_all, Nat.sub_diag. simpl. apply app_nil_r.
Qed.

Lemma skipn_exact {A} (a y : list A) k : length a = k -> skipn k (a ++ y) = y.
Proof.
  intros <-. now rewrite skipn_app, skipn_all, Nat.sub_diag.
Qed.

Lemma firstn_app_firstn {A} (w b : list A) m :
  firstn m (w ++ firstn m b) = firstn m (w ++ b).
Proof.
  rewrite !firstn_app, firstn_firstn. f_equal. f_equal. lia.
Qed.

Lemma inserted_cons t h c w :
  inserted (inserted t h [c]) (S h) w = inserted t h (c :: w).
Proof.
  destruct (Nat.le_gt_cases (length t) h) as [L|G].
  - rewrite (inserted_past t h [c] L), (inserted_past t h (c :: w) L).
    apply inserted_past. lia.
  - assert (Lf : length (firstn h t) = h) by (rewrite length_firstn; lia).
    assert (E1 : inserted t h [c]
                 = (firstn h t ++ [c]) ++ firstn (length t - S h) (skipn h t)).
    { rewrite inserted_inside by lia.
      replace (length t - h)%nat with (S (length t - S h)) by lia.
      simpl. now rewrite <- app_assoc. }
    assert (Lc : length (firstn h t ++ [c]) = S h)
      by (rewrite length_app, Lf; simpl; lia).
    rewrite (inserted_inside (inserted t h [c]) (S h) w)
      by (rewrite length_inserted; lia).
    rewrite length_inserted, (inserted_inside t h (c :: w)) by lia.
    rewrite E1, (firstn_exact _ _ _ Lc), (skipn_exact _ _ _ Lc).
    rewrite firstn_app_firstn.
    replace (length t - h)%nat with (S (length t - S h)) by lia.
    simpl. now rewrite <- app_assoc.
Qed.

Lemma type_symbol_insert_eq ch ed :
  mode ed = insert -> 0 <= head ed ->
  type_symbol ch ed =
  (set_head (head ed + 1)
     (set_tape (inserted (tape ed) (Z.to_nat (head ed)) [ch]) ed), Ret tt).
Proof.
  intros Hm H0.
  unfold type_symbol, tape_insert, tape_pop, bind, get, lift, modify, ret.
  rewrite Hm. simpl.
  destruct (Py.pop (Py.insert (tape ed) (head ed) ch)) as [[t x]|] eqn:E;
    [|now apply pop_insert in E].
  apply pop_firstn in E. simpl. subst t.
  pose proof (len_insert (tape ed) (head ed) ch) as Hl. unfold Py.len in Hl.
  replace (length (Py.insert (tape ed) (head ed) ch) - 1)%nat
    with (length (tape ed)) by lia.
  now rewrite insert_nonneg.
Qed.

Lemma type_loop_insert_eq w : forall ed,
  mode ed = insert -> 0 <= head ed ->
  for_each w type_symbol ed =
  (set_head (head ed + Py.len w)
     (set_tape (inserted (tape ed) (Z.to_nat (head ed)) w) ed), Ret tt).
Proof.
  induction w as [|c w IH]; intros ed Hm H0.
  - rewrite inserted_nil. destruct ed. unfold Py.len, set_head, set_tape. simpl.
    now rewrite Z.add_0_r.
  - cbn [for_each]. unfold bind. rewrite (type_symbol_insert_eq c ed Hm H0).
    rewrite IH by (simpl; auto; lia).
    rewrite set_head_add, len_cons, Z.add_assoc. cbn [head tape set_head set_tape].
    replace (Z.to_nat (head ed + 1)) with (S (Z.to_nat (head ed))) by lia.
    now rewrite inserted_cons.
Qed.

Lemma type_text_loop_result text ed t' h' :
  text <> EmptyString ->
  for_each (list_ascii_of_string text) type_symbol
    (set_state "Typing"
       (set_undo_stack (push_bounded (triple ed) (undo_stack ed)) ed))
  = (set_head h'
       (set_tape t'
          (set_state "Typing"
             (set_undo_stack (push_bounded (triple ed) (undo_stack ed)) ed))),
     Ret tt) ->
  type_text text ed
  = (set_redo_stack []
       (set_head h'
          (set_tape t'
             (set_state "Typing"
                (set_undo_stack (push_bounded (triple ed) (undo_stack ed)) ed)))),
     Ret Done).
Proof.
  intros N E. rewrite (type_text_nonempty text ed N).
  unfold bind, modify, clear_redo, ret. now rewrite E.
Qed.

(** X5: in insert mode, with the head at [h >= 0], [type_text] always
    completes; the new tape is the old one with the text put in at [h],
    the rest moved right and cut to the old length (so a head at or past
    the end leaves the tape as it is), and the head has advanced by the
    length of the text. *)
Theorem typing_inserts (text : string) (ed : TuringEditor) :
  mode ed = insert -> 0 <= head ed ->
  snd (type_text text ed) = Ret Done /\
  tape (fst (type_text text ed))
  = inserted (tape ed) (Z.to_nat (head ed)) (list_ascii_of_string text) /\
  head (fst (type_text text ed)) = head ed + Py.len (list_ascii_of_string text).
Proof.
  intros Hm H0. destruct (string_dec text EmptyString) as [E|N].
  - subst text. simpl. rewrite inserted_nil. unfold Py.len. simpl.
    split; [reflexivity | split; [reflexivity | lia]].
  - rewrite (type_text_loop_result text ed _ _ N
               (type_loop_insert_eq (list_ascii_of_string text)
                  (set_state "Typing"
                     (set_undo_stack (push_bounded (triple ed) (undo_stack ed)) ed))
                  Hm H0)).
    split; [reflexivity | split; reflexivity].
Qed.

Lemma typing_inserts_witness :
  (mode (init 3) = insert /\ 0 <= head (init 3)) /\
  snd (type_text "abcd" (init 3)) = Ret Done /\
  tape (fst (type_text "abcd" (init 3)))
  = inserted (tape (init 3)) (Z.to_nat (head (init 3))) (list_ascii_of_string "abcd") /\
  head (fst (type_text "abcd" (init 3)))
  = head (init 3) + Py.len (list_ascii_of_string "abcd").
Proof.
  assert (Hm : mode (init 3) = insert) by reflexivity.
  assert (H0 : 0 <= head (init 3)) by (simpl; lia).
  split; [split; assumption | exact (typing_inserts "abcd" (init 3) Hm H0)].
Defined.

Lemma setitem_inside_eq {A} (l : list A) i x :
  0 <= i < Py.len l ->
  Py.setitem l i x = Some (firstn (Z.to_nat i) l ++ x :: skipn (S (Z.to_nat i)) l).
Proof. intro H. unfold Py.setitem. now rewrite (index_inside l i H). Qed.

Lemma length_overwritten t h w :
  (h + length w <= length t)%nat -> length (overwritten t h w) = length t.
Proof.
  intro H. unfold overwritten.
  rewrite !length_app, length_firstn, length_skipn. lia.
Qed.

Lemma overwritten_nil t h : overwritten t h [] = t.
Proof. unfold overwritten. simpl. rewrite Nat.add_0_r. apply firstn_skipn. Qed.

Lemma overwritten_cons t h c w :
  (h + S (length w) <= length t)%nat ->
  overwritten (overwritten t h [c]) (S h) w = overwritten t h (c :: w).
Proof.
  intro H.
  assert (Lf : length (firstn h t) = h) by (rewrite length_firstn; lia).
  assert (Lc : length (firstn h t ++ [c]) = S h)
    by (rewrite length_app, Lf; simpl; lia).
  unfold overwritten at 2. simpl length. simpl app.
  change (firstn h t ++ c :: skipn (h + 1) t)
    with (firstn h t ++ [c] ++ skipn (h + 1) t).
  rewrite app_assoc. unfold overwritten.
  rewrite (firstn_exact _ _ _ Lc).
  rewrite skipn_app, Lc.
  rewrite (skipn_all2 (firstn h t ++ [c])) by (rewrite Lc; lia).
  replace (S h + length w - S h)%nat with (length w) by lia.
  rewrite skipn_skipn. simpl app. rewrite <- app_assoc. simpl.
  do 3 f_equal. f_equal. simpl. lia.
Qed.

Lemma type_symbol_overwrite_eq ch ed :
  mode ed = overwrite -> 0 <= head ed < tape_len ed ->
  type_symbol ch ed =
  (set_head (head ed + 1)
     (set_tape (overwritten (tape ed) (Z.to_nat (head ed)) [ch]) ed), Ret tt).
Proof.
  intros Hm Hh.
  unfold type_symbol, write_slot, bind, get, lift, modify, ret.
  rewrite Hm. simpl. rewrite (setitem_inside_eq _ _ _ Hh). simpl.
  unfold overwritten. simpl. now rewrite Nat.add_1_r.
Qed.

Lemma type_loop_overwrite_eq w : forall ed,
  mode ed = overwrite -> 0 <= head ed -> head ed + Py.len w <= tape_len ed ->
  for_each w type_symbol ed =
  (set_head (head ed + Py.len w)
     (set_tape (overwritten (tape ed) (Z.to_nat (head ed)) w) ed), Ret tt).
Proof.
  induction w as [|c w IH]; intros ed Hm H0 Hl.
  - rewrite overwritten_nil. destruct ed. unfold Py.len, set_head, set_tape. simpl.
    now rewrite Z.add_0_r.
  - rewrite len_cons in Hl. pose proof (len_nonneg w) as Hn.
    assert (Hh : 0 <= head ed < tape_len ed) by lia.
    assert (Hw : (Z.to_nat (head ed) + S (length w) <= length (tape ed))%nat)
      by (unfold tape_len, Py.len in *; lia).
    cbn [for_each]. unfold bind.
    rewrite (type_symbol_overwrite_eq c ed Hm Hh).
    rewrite IH.
    + rewrite set_head_add, len_cons, Z.add_assoc.
      cbn [head tape set_head set_tape].
      replace (Z.to_nat (head ed + 1)) with (S (Z.to_nat (head ed))) by lia.
      now rewrite overwritten_cons.
    + exact Hm.
    + cbn [head tape set_head set_tape]. lia.
    + unfold tape_len. cbn [head tape set_head set_tape]. unfold Py.len.
      rewrite length_overwritten by (simpl; lia).
      unfold tape_len, Py.len in *. lia.
Qed.

(** X6: in overwrite mode, when the text typed at head [h >= 0] ends on
    the tape, [type_text] completes; the new tape is the old one with the
    slots from [h] on replaced by the text, nothing moves, and the head has
    advanced by the length of the text. *)
Theorem typing_overwrites (text : string) (ed : TuringEditor) :
  mode ed = overwrite -> 0 <= head ed ->
  head ed + Py.len (list_ascii_of_string text) <= tape_len ed ->
  snd (type_text text ed) = Ret Done /\
  tape (fst (type_text text ed))
  = overwritten (tape ed) (Z.to_nat (head ed)) (list_ascii_of_string text) /\
  head (fst (type_text text ed)) = head ed + Py.len (list_ascii_of_string text).
Proof.
  intros Hm H0 Hl. destruct (string_dec text EmptyString) as [E|N].
  - subst text. simpl. rewrite overwritten_nil. unfold Py.len. simpl.
    split; [reflexivity | split; [reflexivity | lia]].
  - rewrite (type_text_loop_result text ed _ _ N
               (type_loop_overwrite_eq (list_ascii_of_string text)
                  (set_state "Typing"
                     (set_undo_stack (push_bounded (triple ed) (undo_stack ed)) ed))
                  Hm H0 Hl)).
    split; [reflexivity | split; reflexivity].
Qed.

Lemma typing_overwrites_witness :
  (mode ed_over = overwrite /\ 0 <= head ed_over /\
   head ed_over + Py.len (list_ascii_of_string "abcde") <= tape_len ed_over) /\
  snd (type_text "abcde" ed_over) = Ret Done /\
  tape (fst (type_text "abcde" ed_over))
  = overwritten (tape ed_over) (Z.to_nat (head ed_over)) (list_ascii_of_string "abcde") /\
  head (fst (type_text "abcde" ed_over))
  = head ed_over + Py.len (list_ascii_of_string "abcde").
Proof.
  assert (Hm : mode ed_over = overwrite) by reflexivity.
  assert (H0 : 0 <= head ed_over) by (simpl; lia).
  assert (Hl : head ed_over + Py.len (list_ascii_of_string "abcde") <= tape_len ed_over)
    by (vm_compute; congruence).
  split; [repeat split; assumption | exact (typing_overwrites "abcde" ed_over Hm H0 Hl)].
Defined.

(** ** Replacing in closed form *)

Lemma set_tape_same ed : set_tape (tape ed) ed = ed.
Proof. now destruct ed. Qed.

Lemma write_slot_inside i c ed :
  (i < length (tape ed))%nat ->
  write_slot (Z.of_nat i) c ed = (set_tape (overwritten (tape ed) i [c]) ed, Ret tt).
Proof.
  intro H. unfold write_slot, bind, get, lift, modify.
  rewrite setitem_inside_eq by (unfold Py.len; lia).
  rewrite Nat2Z.id. unfold overwritten. simpl. now rewrite Nat.add_1_r.
Qed.

Lemma write_loop_eq w : forall i ed,
  (i + length w <= length (tape ed))%nat ->
  for_each (combine (map Z.of_nat (seq i (length w))) w)
    (fun p => write_slot (fst p) (snd p)) ed
  = (set_tape (overwritten (tape ed) i w) ed, Ret tt).
Proof.
  induction w as [|c w IH]; intros i ed H.
  - simpl. now rewrite overwritten_nil, set_tape_same.
  - simpl in H. cbn [length seq map combine for_each fst snd]. unfold bind.
    rewrite write_slot_inside by lia.
    rewrite IH by (cbn [tape set_tape]; rewrite length_overwritten; simpl; lia).
    cbn [tape set_tape]. rewrite overwritten_cons by lia. reflexivity.
Qed.

Lemma blank_loop_eq m : forall i ed,
  (i + m <= length (tape ed))%nat ->
  for_each (map Z.of_nat (seq i m)) (fun j => write_slot j blank) ed
  = (set_tape (overwritten (tape ed) i (repeat blank m)) ed, Ret tt).
Proof.
  induction m as [|m IH]; intros i ed H.
  - simpl. now rewrite overwritten_nil, set_tape_same.
  - cbn [seq map for_each repeat]. unfold bind.
    rewrite write_slot_inside by lia.
    rewrite IH by (cbn [tape set_tape]; rewrite length_overwritten; simpl; lia).
    cbn [tape set_tape].
    rewrite overwritten_cons by (rewrite repeat_length; lia). reflexivity.
Qed.

Lemma range_seq a b :
  0 <= a -> Py.range a b = map Z.of_nat (seq (Z.to_nat a) (Z.to_nat (b - a))).
Proof.
  intro H. unfold Py.range.
  rewrite <- (Nat.add_0_r (Z.to_nat a)) at 1.
  generalize (Z.to_nat (b - a)) as m. generalize O as s.
  intros s m. revert s. induction m as [|m IH]; intro s; simpl; [reflexivity|].
  f_equal; [lia|]. rewrite IH. now rewrite Nat.add_succ_r.
Qed.

Lemma replace_text_eq old new ed :
  Py.len (Py.replace (get_text ed)
            (list_ascii_of_string old) (list_ascii_of_string new)) <= tape_len ed ->
  replace_text old new ed
  = (set_tape
       (Py.replace (get_text ed) (list_ascii_of_string old) (list_ascii_of_string new)
        ++ Py.times blank
             (tape_len ed
              - Py.len (Py.replace (get_text ed)
                          (list_ascii_of_string old) (list_ascii_of_string new))))
       (set_undo_stack (push_bounded (triple ed) (undo_stack ed)) ed),
     Ret Done).
Proof.
  intro Hfit. unfold replace_text. rewrite bind_save_state.
  set (ed1 := set_undo_stack _ ed).
  unfold bind at 1. unfold get at 1.
  change (get_text ed1) with (get_text ed).
  set (text := Py.replace _ _ _) in *.
  assert (Hn : (length text <= length (tape ed))%nat)
    by (unfold tape_len, Py.len in Hfit; lia).
  unfold bind at 1. unfold Py.enumerate.
  rewrite (write_loop_eq text 0 ed1) by exact Hn.
  unfold bind at 1. unfold get at 1. cbn [tape set_tape].
  change (tape ed1) with (tape ed).
  assert (Lo : length (overwritten (tape ed) 0 text) = length (tape ed))
    by (apply length_overwritten; simpl; lia).
  rewrite range_seq by apply len_nonneg.
  unfold Py.len at 1 2 3. rewrite Lo, Nat2Z.id.
  replace (Z.to_nat (Z.of_nat (length (tape ed)) - Z.of_nat (length text)))
    with (length (tape ed) - length text)%nat by lia.
  unfold bind.
  rewrite blank_loop_eq by (cbn [tape set_tape]; rewrite Lo; lia).
  cbn [tape set_tape]. unfold ret. f_equal.
  replace (set_tape _ (set_tape _ ed1))
    with (set_tape (overwritten (overwritten (tape ed) 0 text) (length text)
                      (repeat blank (length (tape ed) - length text))) ed1)
    by reflexivity.
  f_equal. unfold overwritten at 1. unfold overwritten at 1.
  simpl firstn. simpl app.
  rewrite (firstn_exact text _ (length text) eq_refl).
  rewrite skipn_all2 by (rewrite Lo, repeat_length; lia).
  rewrite app_nil_r. unfold Py.times, tape_len, Py.len. do 2 f_equal. lia.
Qed.

(** X7: when the replaced text fits on the tape, [replace_text] completes;
    the new tape is the replaced text followed by blanks up to the old
    length, the head stays where it was even if that is now past the text,
    and the text of the editor is the replaced text without trailing
    underscores. *)
Theorem replacing_rewrites_tape (old new : string) (ed : TuringEditor) :
  Py.len (Py.replace (get_text ed)
            (list_ascii_of_string old) (list_ascii_of_string new)) <= tape_len ed ->
  snd (replace_text old new ed) = Ret Done /\
  tape (fst (replace_text old new ed))
  = Py.replace (get_text ed) (list_ascii_of_string old) (list_ascii_of_string new)
    ++ Py.times blank
         (tape_len ed
          - Py.len (Py.replace (get_text ed)
                      (list_ascii_of_string old) (list_ascii_of_string new))) /\
  head (fst (replace_text old new ed)) = head ed /\
  get_text (fst (replace_text old new ed))
  = Py.rstrip
      (Py.replace (get_text ed) (list_ascii_of_string old) (list_ascii_of_string new))
      blank.
Proof.
  intro Hfit. rewrite (replace_text_eq old new ed Hfit).
  split; [reflexivity|]. split; [reflexivity|]. split; [reflexivity|].
  rewrite get_text_rstrip. cbn [fst tape set_tape]. unfold Py.times.
  apply rstrip_app_repeat.
Qed.

Lemma replacing_rewrites_tape_witness :
  Py.len (Py.replace (get_text ed_ab)
            (list_ascii_of_string "b") (list_ascii_of_string "xyz")) <= tape_len ed_ab /\
  snd (replace_text "b" "xyz" ed_ab) = Ret Done /\
  tape (fst (replace_text "b" "xyz" ed_ab))
  = Py.replace (get_text ed_ab) (list_ascii_of_string "b") (list_ascii_of_string "xyz")
    ++ Py.times blank
         (tape_len ed_ab
          - Py.len (Py.replace (get_text ed_ab)
                      (list_ascii_of_string "b") (list_ascii_of_string "xyz"))) /\
  head (fst (replace_text "b" "xyz" ed_ab)) = head ed_ab /\
  get_text (fst (replace_text "b" "xyz" ed_ab))
  = Py.rstrip
      (Py.replace (get_text ed_ab) (list_ascii_of_string "b") (list_ascii_of_string "xyz"))
      blank.
Proof.
  assert (H : Py.len (Py.replace (get_text ed_ab)
                        (list_ascii_of_string "b") (list_ascii_of_string "xyz"))
              <= tape_len ed_ab) by (vm_compute; congruence).
  split; [exact H | exact (replacing_rewrites_tape "b" "xyz" ed_ab H)].
Defined.

(** ** Backspace, inside and past the tape *)

Lemma index_outside {A} (l : list A) i : Py.len l <= i -> Py.index l i = None.
Proof.
  intro H. pose proof (len_nonneg l). unfold Py.index.
  destruct (Z.ltb_spec i 0); [lia|].
  destruct (Z.ltb_spec i 0); [lia|].
  destruct (Z.leb_spec (Py.len l) i); [reflexivity | lia].
Qed.

(** X8: with the head in [1, len(tape)], [backspace] completes: it takes a
    checkpoint, reports the symbol left of the head, blanks that slot
    without moving anything, steps the head back by one and empties the
    redo stack. *)
Theorem backspace_inside (ed : TuringEditor) :
  0 < head ed <= tape_len ed ->
  exists x,
    nth_error (tape ed) (Z.to_nat (head ed - 1)) = Some x /\
    backspace ed
    = (set_redo_stack []
         (set_tape (overwritten (tape ed) (Z.to_nat (head ed - 1)) [blank])
            (set_head (head ed - 1)
               (set_state "Delete"
                  (set_undo_stack (push_bounded (triple ed) (undo_stack ed)) ed)))),
       Ret (Deleted x)).
Proof.
  intro H. assert (N : head ed <> 0) by lia.
  assert (Hi : 0 <= head ed - 1 < Py.len (tape ed)) by (unfold tape_len in H; lia).
  destruct (getitem_inside (tape ed) (head ed - 1) Hi) as [x Ex].
  exists x. split.
  - unfold Py.getitem in Ex. now rewrite (index_inside _ _ Hi) in Ex.
  - rewrite (backspace_away ed N).
    unfold read_slot, write_slot, clear_redo, bind, get, lift, modify, ret.
    cbn [tape head set_head set_state set_undo_stack].
    rewrite Ex. cbn [tape head set_head set_state set_undo_stack].
    rewrite (setitem_inside_eq _ _ blank Hi).
    unfold overwritten. simpl. now rewrite Nat.add_1_r.
Qed.

Lemma backspace_inside_witness :
  0 < head ed_ab <= tape_len ed_ab /\
  exists x,
    nth_error (tape ed_ab) (Z.to_nat (head ed_ab - 1)) = Some x /\
    backspace ed_ab
    = (set_redo_stack []
         (set_tape (overwritten (tape ed_ab) (Z.to_nat (head ed_ab - 1)) [blank])
            (set_head (head ed_ab - 1)
               (set_state "Delete"
                  (set_undo_stack (push_bounded (triple ed_ab) (undo_stack ed_ab))
                     ed_ab)))),
       Ret (Deleted x)).
Proof.
  assert (H : 0 < head ed_ab <= tape_len ed_ab) by (vm_compute; split; congruence).
  split; [exact H | exact (backspace_inside ed_ab H)].
Defined.

(** X9: with the head more than one past the end of the tape, [backspace]
    raises IndexError at the read of the slot, after the checkpoint was
    pushed and the head stepped back: tape and redo stack are as before,
    while the undo stack and the head are not. *)
Theorem backspace_past_end (ed : TuringEditor) :
  tape_len ed < head ed ->
  backspace ed
  = (set_head (head ed - 1)
       (set_state "Delete"
          (set_undo_stack (push_bounded (triple ed) (undo_stack ed)) ed)),
     Raise IndexError).
Proof.
  intro H. pose proof (len_nonneg (tape ed)) as Hn. unfold tape_len in H.
  assert (N : head ed <> 0) by lia.
  rewrite (backspace_away ed N).
  unfold read_slot, bind, get, lift, modify.
  cbn [tape head set_head set_state set_undo_stack].
  unfold Py.getitem. rewrite index_outside by lia. reflexivity.
Qed.

Lemma backspace_past_end_witness :
  tape_len (run [CType "abcde"] (init 3)) < head (run [CType "abcde"] (init 3)) /\
  backspace (run [CType "abcde"] (init 3))
  = (set_head (head (run [CType "abcde"] (init 3)) - 1)
       (set_state "Delete"
          (set_undo_stack
             (push_bounded (triple (run [CType "abcde"] (init 3)))
                (undo_stack (run [CType "abcde"] (init 3))))
             (run [CType "abcde"] (init 3)))),
     Raise IndexError).
Proof.
  assert (H : tape_len (run [CType "abcde"] (init 3))
              < head (run [CType "abcde"] (init 3))) by (vm_compute; reflexivity).
  split; [exact H | exact (backspace_past_end _ H)].
Defined.

(** ** Undo and redo as inverses *)

Lemma set_state_stacks ed q u r t h m :
  tape ed = t -> head ed = h -> mode ed = m ->
  undo_stack ed = u -> redo_stack ed = r ->
  mkEditor t h q m u r = set_state q ed.
Proof. intros <- <- <- <- <-. reflexivity. Qed.

(** X10: undo and redo undo each other on the whole editor: after an undo
    and a redo, or after a redo and an undo, tape, head, mode and both
    stacks are exactly as before; only the state label names the last
    operation. *)
Theorem undo_redo_inverse (ed : TuringEditor) :
  (undo_stack ed <> [] -> fst (redo (fst (undo ed))) = set_state "Redo" ed) /\
  (redo_stack ed <> [] -> fst (undo (fst (redo ed))) = set_state "Undo" ed).
Proof.
  split; intro Hne.
  - destruct (nonempty_top _ Hne) as (u & s & Eu).
    rewrite (undo_top ed u s Eu). cbn [fst].
    match goal with
    | |- fst (redo ?e) = _ =>
        assert (Hr : redo_stack e = redo_stack ed ++ [triple ed])
          by (destruct s as [[t h] m]; reflexivity);
        rewrite (redo_top e _ _ Hr)
    end.
    destruct s as [[t h] m]. cbn. apply set_state_stacks; auto.
  - destruct (nonempty_top _ Hne) as (r & s & Er).
    rewrite (redo_top ed r s Er). cbn [fst].
    match goal with
    | |- fst (undo ?e) = _ =>
        assert (Hu : undo_stack e = undo_stack ed ++ [triple ed])
          by (destruct s as [[t h] m]; reflexivity);
        rewrite (undo_top e _ _ Hu)
    end.
    destruct s as [[t h] m]. cbn. apply set_state_stacks; auto.
Qed.

Lemma undo_redo_inverse_witness :
  (undo_stack ed_ab <> [] /\ redo_stack ed_undone <> []) /\
  fst (redo (fst (undo ed_ab))) = set_state "Redo" ed_ab /\
  fst (undo (fst (redo ed_undone))) = set_state "Undo" ed_undone.
Proof.
  assert (Hu : undo_stack ed_ab <> []) by (simpl; discriminate).
  assert (Hr : redo_stack ed_undone <> []) by (simpl; discriminate).
  split; [split; assumption|].
  split.
  - exact (proj1 (undo_redo_inverse ed_ab) Hu).
  - exact (proj2 (undo_redo_inverse ed_undone) Hr).
Defined.

(** ** Several undos *)

Lemma checkpoints_push c ed :
  checkpoints c ed ->
  undo_stack (after c ed) = push_bounded (triple ed) (undo_stack ed).
Proof.
  unfold after. destruct c as [text| | | | | | | | |old new| |content];
    simpl; try contradiction; intro H.
  - exact (edit_checkpoints (EType text) ed H).
  - exact (edit_checkpoints EBackspace ed H).
  - exact (edit_checkpoints (EReplace old new) ed I).
  - exact (edit_checkpoints EClearAll ed I).
  - destruct content as [s|]; [|contradiction].
    unfold load_from_file. now rewrite bind_save_state.
Qed.

Lemma push_bounded_below s u : Py.len u < undo_bound -> push_bounded s u = u ++ [s].
Proof.
  intro H. unfold push_bounded. rewrite len_app.
  destruct (Z.gtb_spec (Py.len u + Py.len [s]) undo_bound) as [G|_]; [|reflexivity].
  unfold Py.len in *. simpl in G. lia.
Qed.

Lemma undo_times_last k : forall ed,
  undo_times (S k) ed = after CUndo (undo_times k ed).
Proof.
  induction k as [|k IH]; intro ed; [reflexivity|].
  change (undo_times (S (S k)) ed) with (undo_times (S k) (after CUndo ed)).
  now rewrite IH.
Qed.

Lemma run_cons c cs ed : run (c :: cs) ed = run cs (after c ed).
Proof. reflexivity. Qed.

(** X11: after any number of commands that each take a checkpoint (typing,
    backspace, replace, clear, load), as many undos bring back the tape,
    head and mode from before the first of them, and the undo stack as
    well, provided the stack never had to evict: its depth before plus the
    number of commands is at most 300. *)
Theorem undo_all_restores (cs : list command) (ed : TuringEditor) :
  all_checkpoint cs ed ->
  Py.len (undo_stack ed) + Py.len cs <= undo_bound ->
  triple (undo_times (length cs) (run cs ed)) = triple ed /\
  undo_stack (undo_times (length cs) (run cs ed)) = undo_stack ed.
Proof.
  revert ed. induction cs as [|c cs IH]; intros ed Hc Hb; [now split|].
  destruct Hc as [Hc Hcs]. rewrite len_cons in Hb.
  pose proof (len_nonneg cs) as Hn.
  assert (E : undo_stack (after c ed) = undo_stack ed ++ [triple ed]).
  { rewrite (checkpoints_push c ed Hc). apply push_bounded_below. lia. }
  destruct (IH (after c ed) Hcs) as [Et Eu].
  { rewrite E, len_app. unfold Py.len at 2. simpl. lia. }
  rewrite run_cons. cbn [length]. rewrite undo_times_last.
  rewrite E in Eu. unfold after at 1 3. cbn [exec].
  rewrite (undo_top _ _ _ Eu). cbn [fst].
  split; [apply triple_restore|].
  generalize (triple ed). intros [[t h] m]. reflexivity.
Qed.

Lemma undo_all_restores_witness :
  (all_checkpoint [CType "ab"; CDel; CClear; CLoad (Some "xyz"%string)] (init 10) /\
   Py.len (undo_stack (init 10))
   + Py.len [CType "ab"; CDel; CClear; CLoad (Some "xyz"%string)] <= undo_bound) /\
  triple (undo_times 4
            (run [CType "ab"; CDel; CClear; CLoad (Some "xyz"%string)] (init 10)))
  = triple (init 10) /\
  undo_stack (undo_times 4
                (run [CType "ab"; CDel; CClear; CLoad (Some "xyz"%string)] (init 10)))
  = undo_stack (init 10).
Proof.
  assert (Hc : all_checkpoint [CType "ab"; CDel; CClear; CLoad (Some "xyz"%string)]
                 (init 10)).
  { simpl. repeat split; try discriminate. }
  assert (Hb : Py.len (undo_stack (init 10))
               + Py.len [CType "ab"; CDel; CClear; CLoad (Some "xyz"%string)]
               <= undo_bound) by (vm_compute; discriminate).
  split; [split; assumption|].
  exact (undo_all_restores _ (init 10) Hc Hb).
Defined.

(** X12: on a full undo stack (300 snapshots) a checkpoint drops the oldest
    snapshot, appends the new one and leaves the depth at 300, so the
    state before the oldest remaining edit can no longer be reached. *)
Theorem full_stack_evicts_oldest (c : command) (ed : TuringEditor) :
  checkpoints c ed ->
  Py.len (undo_stack ed) = undo_bound ->
  undo_stack (after c ed) = tl (undo_stack ed) ++ [triple ed] /\
  Py.len (undo_stack (after c ed)) = undo_bound.
Proof.
  intros Hc Hl. rewrite (checkpoints_push c ed Hc).
  assert (G : (Py.len (undo_stack ed ++ [triple ed]) >? undo_bound) = true).
  { rewrite len_app. unfold Py.len at 2. simpl. rewrite Hl. reflexivity. }
  unfold push_bounded. rewrite G.
  rewrite tl_app_top
    by (rewrite len_app, Hl; unfold Py.len, undo_bound; simpl; lia).
  split; [reflexivity|].
  rewrite len_app. unfold Py.len in *. rewrite length_tl. simpl.
  unfold undo_bound in *. lia.
Qed.

Lemma full_stack_evicts_oldest_witness :
  (checkpoints CClear ed_full /\ Py.len (undo_stack ed_full) = undo_bound) /\
  undo_stack (after CClear ed_full) = tl (undo_stack ed_full) ++ [triple ed_full] /\
  Py.len (undo_stack (after CClear ed_full)) = undo_bound.
Proof.
  assert (Hc : checkpoints CClear ed_full) by exact I.
  assert (Hl : Py.len (undo_stack ed_full) = undo_bound) by (vm_compute; reflexivity).
  split; [split; assumption | exact (full_stack_evicts_oldest CClear ed_full Hc Hl)].
Defined.

Lemma redo_times_last k : forall ed,
  redo_times (S k) ed = after CRedo (redo_times k ed).
Proof.
  induction k as [|k IH]; intro ed; [reflexivity|].
  change (redo_times (S (S k)) ed) with (redo_times (S k) (after CRedo ed)).
  now rewrite IH.
Qed.

Lemma undo_redo_editor ed :
  undo_stack ed <> [] -> after CRedo (after CUndo ed) = set_state "Redo" ed.
Proof.
  intro Hne. unfold after. cbn [exec].
  destruct (nonempty_top _ Hne) as (u & s & Eu).
  rewrite (undo_top ed u s Eu). cbn [fst].
  match goal with
  | |- fst (redo ?e) = _ =>
      assert (Hr : redo_stack e = redo_stack ed ++ [triple ed])
        by (destruct s as [[t h] m]; reflexivity);
      rewrite (redo_top e _ _ Hr)
  end.
  destruct s as [[t h] m]. cbn. apply set_state_stacks; auto.
Qed.

Lemma undo_pops_one ed u s :
  undo_stack ed = u ++ [s] -> undo_stack (after CUndo ed) = u.
Proof.
  intro E. unfold after. cbn [exec]. rewrite (undo_top ed u s E).
  destruct s as [[t h] m]. reflexivity.
Qed.

Lemma redo_after_label q ed :
  redo_stack ed <> [] -> after CRedo (set_state q ed) = after CRedo ed.
Proof.
  intro Hne. unfold after. cbn [exec].
  destruct (nonempty_top _ Hne) as (r & s & Er).
  rewrite (redo_top ed r s Er).
  rewrite (redo_top (set_state q ed) r s Er).
  destruct s as [[t h] m]. reflexivity.
Qed.

(** X13: [k >= 1] undos followed by [k] redos give back the whole editor
    (tape, head, mode, both stacks), with the state label "Redo", whenever
    the undo stack holds at least [k] snapshots. *)
Theorem undos_then_redos (k : nat) (ed : TuringEditor) :
  (0 < k)%nat -> Z.of_nat k <= Py.len (undo_stack ed) ->
  redo_times k (undo_times k ed) = set_state "Redo" ed.
Proof.
  revert ed. induction k as [|k IH]; intros ed Hk Hl; [lia|].
  assert (Hne : undo_stack ed <> []).
  { intro E. rewrite E in Hl. unfold Py.len in Hl. simpl in Hl. lia. }
  destruct (nonempty_top _ Hne) as (u & s & Eu).
  rewrite redo_times_last. cbn [undo_times].
  destruct k as [|k].
  - cbn [undo_times redo_times]. now apply undo_redo_editor.
  - rewrite IH.
    + rewrite redo_after_label; [now apply undo_redo_editor|].
      unfold after. cbn [exec]. rewrite (undo_top ed u s Eu).
      destruct s as [[t h] m]. cbn. now destruct (redo_stack ed).
    + lia.
    + rewrite (undo_pops_one ed u s Eu). rewrite Eu, len_app in Hl.
      unfold Py.len in *. simpl in Hl. lia.
Qed.

Lemma undos_then_redos_witness :
  ((0 < 2)%nat /\ Z.of_nat 2 <= Py.len (undo_stack ed_two)) /\
  redo_times 2 (undo_times 2 ed_two) = set_state "Redo" ed_two.
Proof.
  assert (Hk : (0 < 2)%nat) by lia.
  assert (Hl : Z.of_nat 2 <= Py.len (undo_stack ed_two)) by (vm_compute; discriminate).
  split; [split; assumption | exact (undos_then_redos 2 ed_two Hk Hl)].
Defined.

(** ** The end of the text *)

(** X14: [move_end] puts the head on the last non-blank slot unless the
    head is already further right, in which case it stays: the head never
    moves towards the start, and a second [move_end] changes nothing. *)
Theorem move_end_never_moves_left (ed : TuringEditor) :
  head (after CEnd ed) = Z.max (last_nonblank (tape ed)) (head ed) /\
  head ed <= head (after CEnd ed) /\
  after CEnd (after CEnd ed) = after CEnd ed.
Proof.
  assert (E : head (after CEnd ed) = Z.max (last_nonblank (tape ed)) (head ed)).
  { change (head (after CEnd ed)) with (_visible_length ed - 1).
    unfold _visible_length. lia. }
  split; [exact E|]. split; [lia|].
  unfold after. cbn [exec]. unfold move_end, bind, modify, ret. cbn [fst].
  unfold set_head, set_state. cbn [tape head state mode undo_stack redo_stack].
  f_equal. unfold _visible_length. cbn [tape head]. lia.
Qed.

Lemma firstn_app_repeat_fit {A} (a w : list A) (x : A) k :
  (length w <= k)%nat ->
  firstn (length (a ++ repeat x k)) (a ++ w ++ repeat x k)
  = a ++ w ++ repeat x (k - length w).
Proof.
  intro H. rewrite length_app, repeat_length.
  rewrite firstn_app_2, firstn_app.
  rewrite (firstn_all2 w H), firstn_repeat. do 3 f_equal. lia.
Qed.

Lemma skipn_app_repeat_fit {A} (a w : list A) (x : A) k :
  (length w <= k)%nat ->
  skipn (length a + length w) (a ++ repeat x k) = repeat x (k - length w).
Proof.
  intro H. rewrite skipn_app.
  rewrite skipn_all2 by lia.
  replace (length a + length w - length a)%nat with (length w) by lia.
  simpl. generalize (length w) as m, H. clear. intros m. revert k.
  induction m as [|m IH]; intros k H; [now rewrite Nat.sub_0_r|].
  destruct k as [|k]; [lia|]. simpl. apply IH. lia.
Qed.

(** X15: at the end of the content, that is when every slot from the head
    on is blank, typing a text that fits appends it: the new tape is the
    content, the text and the remaining blanks, in insert mode and in
    overwrite mode alike. *)
Theorem typing_at_end_appends (text : string) (ed : TuringEditor)
  (pre : list ascii) (k : nat) :
  tape ed = pre ++ repeat blank k ->
  head ed = Py.len pre ->
  (length (list_ascii_of_string text) <= k)%nat ->
  snd (type_text text ed) = Ret Done /\
  tape (fst (type_text text ed))
  = pre ++ list_ascii_of_string text
    ++ repeat blank (k - length (list_ascii_of_string text)) /\
  head (fst (type_text text ed)) = Py.len (pre ++ list_ascii_of_string text).
Proof.
  intros Ht Hh Hk.
  assert (H0 : 0 <= head ed) by (rewrite Hh; apply len_nonneg).
  assert (Hn : Z.to_nat (head ed) = length pre)
    by (rewrite Hh; unfold Py.len; apply Nat2Z.id).
  assert (Hf : firstn (length pre) (tape ed) = pre)
    by (rewrite Ht; now apply firstn_exact).
  rewrite len_app, <- Hh.
  destruct (string_dec text EmptyString) as [E|N].
  { subst text. simpl. rewrite Nat.sub_0_r. unfold Py.len. simpl.
    split; [reflexivity | split; [exact Ht | lia]]. }
  destruct (mode ed) eqn:Hm.
  - rewrite (type_text_loop_result text ed _ _ N
               (type_loop_insert_eq (list_ascii_of_string text)
                  (set_state "Typing"
                     (set_undo_stack (push_bounded (triple ed) (undo_stack ed)) ed))
                  Hm H0)).
    split; [reflexivity|]. split; [|reflexivity].
    cbn [fst tape head set_redo_stack set_head set_tape set_state set_undo_stack].
    rewrite Hn. unfold inserted. rewrite Hf.
    rewrite Ht at 2. rewrite (skipn_exact pre _ (length pre) eq_refl).
    rewrite Ht. now apply firstn_app_repeat_fit.
  - assert (Hl : head ed + Py.len (list_ascii_of_string text) <= tape_len ed).
    { unfold tape_len. rewrite Ht, len_app, Hh. unfold Py.len.
      rewrite repeat_length. lia. }
    rewrite (type_text_loop_result text ed _ _ N
               (type_loop_overwrite_eq (list_ascii_of_string text)
                  (set_state "Typing"
                     (set_undo_stack (push_bounded (triple ed) (undo_stack ed)) ed))
                  Hm H0 Hl)).
    split; [reflexivity|]. split; [|reflexivity].
    cbn [fst tape head set_redo_stack set_head set_tape set_state set_undo_stack].
    rewrite Hn. unfold overwritten. rewrite Hf.
    rewrite Ht. now rewrite skipn_app_repeat_fit.
Qed.

Lemma typing_at_end_appends_witness :
  (tape ed_ab = list_ascii_of_string "ab" ++ repeat blank 8 /\
   head ed_ab = Py.len (list_ascii_of_string "ab") /\
   (length (list_ascii_of_string "cd") <= 8)%nat) /\
  snd (type_text "cd" ed_ab) = Ret Done /\
  tape (fst (type_text "cd" ed_ab))
  = list_ascii_of_string "ab" ++ list_ascii_of_string "cd"
    ++ repeat blank (8 - length (list_ascii_of_string "cd")) /\
  head (fst (type_text "cd" ed_ab))
  = Py.len (list_ascii_of_string "ab" ++ list_ascii_of_string "cd").
Proof.
  assert (Ht : tape ed_ab = list_ascii_of_string "ab" ++ repeat blank 8) by reflexivity.
  assert (Hh : head ed_ab = Py.len (list_ascii_of_string "ab")) by reflexivity.
  assert (Hk : (length (list_ascii_of_string "cd") <= 8)%nat) by (simpl; lia).
  split; [repeat split; assumption|].
  exact (typing_at_end_appends "cd" ed_ab _ 8%nat Ht Hh Hk).
Defined.

(** ** Words *)



Lemma split_scan_count s : forall cur,
  2 * Py.len (PyStr.split_scan s cur)
  <= Py.len s + (match cur with [] => 1 | _ :: _ => 2 end).
Proof.
  induction s as [|c s IH]; intro cur.
  - destruct cur; unfold Py.len; simpl; lia.
  - rewrite (len_cons c s). cbn [PyStr.split_scan]. destruct (PyStr.isspace c).
    + destruct cur as [|x cur].
      * specialize (IH []). cbv beta iota in IH. lia.
      * rewrite len_cons. specialize (IH []). cbv beta iota in IH. lia.
    + specialize (IH (c :: cur)). cbv beta iota in IH. destruct cur; lia.
Qed.

Lemma len_rstrip s c : Py.len (Py.rstrip s c) <= Py.len s.
Proof.
  destruct (rstrip_decomp s c) as [k E]. rewrite E at 2. rewrite len_app.
  pose proof (len_nonneg (repeat c k)). lia.
Qed.

(** X16: the two numbers of [word_count] are tied: the character count is
    the position after the last non-blank slot, at most the length of the
    tape, and [w] words need at least [2w - 1] characters. *)
Theorem word_count_bounds (ed : TuringEditor) :
  snd (word_count ed) = last_nonblank (tape ed) + 1 /\
  snd (word_count ed) <= tape_len ed /\
  0 <= fst (word_count ed) /\
  2 * fst (word_count ed) <= snd (word_count ed) + 1.
Proof.
  unfold word_count. cbn [fst snd]. rewrite get_text_rstrip.
  split; [symmetry; apply last_nonblank_rstrip|].
  split; [apply len_rstrip|].
  split; [apply len_nonneg|].
  apply (split_scan_count (Py.rstrip (tape ed) blank) []).
Qed.

(** ** The driver *)

Lemma lstrip_first_nonspace s c r :
  PyStr.lstrip s = c :: r -> PyStr.isspace c = false.
Proof.
  induction s as [|x s IH]; simpl; [discriminate|].
  destruct (PyStr.isspace x) eqn:E; [exact IH|].
  intro H. inversion H. now subst.
Qed.

Lemma lstrip_suffix s : exists p, s = p ++ PyStr.lstrip s.
Proof.
  induction s as [|x s [p IH]]; [now exists []|]. simpl.
  destruct (PyStr.isspace x).
  - exists (x :: p). simpl. now f_equal.
  - now exists [].
Qed.

Lemma lstrip_keeps_last s r x :
  PyStr.isspace x = false -> s = r ++ [x] ->
  exists r', PyStr.lstrip s = r' ++ [x].
Proof.
  revert r. induction s as [|y s IH]; intros r Hx E.
  - destruct r; discriminate.
  - simpl. destruct (PyStr.isspace y) eqn:Ey.
    + destruct r as [|z r]; simpl in E; inversion E; subst.
      * congruence.
      * now apply (IH r).
    + exists r. exact E.
Qed.

Lemma strip_first_nonspace s c r :
  PyStr.strip s = c :: r -> PyStr.isspace c = false.
Proof.
  unfold PyStr.strip. intro H.
  (* the first character of the result is the last of [lstrip (rev (lstrip s))],
     which is the last of [rev (lstrip s)], i.e. the first of [lstrip s] *)
  destruct (PyStr.lstrip s) as [|a t] eqn:Ea; [discriminate|].
  pose proof (lstrip_first_nonspace s a t Ea) as Ha.
  destruct (lstrip_keeps_last (rev (a :: t)) (rev t) a Ha eq_refl) as [r' Er].
  rewrite Er, rev_app_distr in H. simpl in H. inversion H. now subst.
Qed.

Lemma split_scan_nonempty s : forall cur, cur <> [] -> PyStr.split_scan s cur <> [].
Proof.
  induction s as [|c s IH]; intros cur Hc; simpl.
  - destruct cur; [contradiction | discriminate].
  - destruct (PyStr.isspace c).
    + destruct cur; [contradiction | discriminate].
    + apply IH. discriminate.
Qed.

Lemma split_strip_nonempty s : PyStr.strip s <> [] -> PyStr.split (PyStr.strip s) <> [].
Proof.
  intro H. destruct (PyStr.strip s) as [|c r] eqn:E; [contradiction|].
  apply strip_first_nonspace in E. unfold PyStr.split. simpl. rewrite E.
  apply split_scan_nonempty. discriminate.
Qed.

(** X17: the subscript [parts[0]] of the driver, which stands outside its
    [try], can never raise: a command that is not empty after [strip]
    always splits into at least one word. *)
Theorem dispatch_never_crashes (line : string) : dispatch line <> Crash.
Proof.
  unfold dispatch.
  destruct (PyStr.strip (list_ascii_of_string line)) as [|c r] eqn:E;
    [discriminate|].
  pose proof (split_strip_nonempty (list_ascii_of_string line)) as H.
  rewrite E in H.
  destruct (PyStr.split (c :: r)) as [|p0 args]; [now elim H; [discriminate|]|].
  cbv zeta.
  repeat match goal with
         | |- (if ?b then _ else _) <> _ => destruct b; [discriminate|]
         end.
  discriminate.
Qed.

Example dispatch_examples :
  dispatch "type hello   world " = Call (KType "hello world") /\
  dispatch "type" = Call (KType "") /\
  dispatch "  DEL now" = Call KDel /\
  dispatch "replace a" = Call KInvalid /\
  dispatch "replace ab xyz" = Call (KReplace "ab" "xyz") /\
  dispatch "Load notes.txt" = Call (KLoad "notes.txt") /\
  dispatch "   " = Continue /\
  dispatch "quit" = Call KInvalid.
Proof. vm_compute. repeat split. Qed.




(** ** The invariants at work on concrete editors *)

Lemma tape_length_kept_witness :
  (within 10 (CLoad (Some "xyz"%string)) /\ well_formed (has_length 10) ed_ab) /\
  well_formed (has_length 10) (after (CLoad (Some "xyz"%string)) ed_ab).
Proof.
  assert (Hw : within 10 (CLoad (Some "xyz"%string))) by (vm_compute; discriminate).
  assert (W : well_formed (has_length 10) ed_ab).
  { split; [reflexivity|]. split; repeat constructor. }
  split; [split; assumption | exact (tape_length_kept 10 _ ed_ab Hw W)].
Defined.

Lemma undo_depth_kept_without_redo_witness :
  (CClear <> CRedo /\ Py.len (undo_stack ed_full) <= undo_bound) /\
  Py.len (undo_stack (after CClear ed_full)) <= undo_bound.
Proof.
  assert (N : CClear <> CRedo) by discriminate.
  assert (H : Py.len (undo_stack ed_full) <= undo_bound) by (vm_compute; discriminate).
  split; [split; assumption | exact (undo_depth_kept_without_redo CClear ed_full N H)].
Defined.

Lemma reachable_head_nonneg_witness :
  reachable 10 (after (CType "ab") (init 10)) /\
  0 <= head (after (CType "ab") (init 10)).
Proof.
  assert (R : reachable 10 (after (CType "ab") (init 10)))
    by (apply reach_step, reach_init).
  split; [exact R | exact (reachable_head_nonneg 10 _ R)].
Defined.

Lemma head_in_range_kept_witness :
  (stays_inside ed_ab (CType "cd") /\ well_formed in_range ed_ab) /\
  well_formed in_range (after (CType "cd") ed_ab).
Proof.
  assert (Hs : stays_inside ed_ab (CType "cd")) by (vm_compute; discriminate).
  assert (W : well_formed in_range ed_ab).
  { split; [vm_compute; split; discriminate|].
    split; repeat constructor; vm_compute; discriminate. }
  split; [split; assumption | exact (head_in_range_kept (CType "cd") ed_ab Hs W)].
Defined.


(** ** What an overflow leaves behind *)

Lemma for_each_app {A} (l1 l2 : list A) (body : A -> M unit) : forall ed,
  for_each (l1 ++ l2) body ed = (for_each l1 body ;; for_each l2 body) ed.
Proof.
  induction l1 as [|x l1 IH]; intro ed; [reflexivity|].
  cbn [app for_each]. unfold bind.
  destruct (body x ed) as [ed1 [[]|e]]; [|reflexivity].
  rewrite IH. reflexivity.
Qed.

Lemma bind_ret {A B} (m : M A) (k : A -> M B) ed ed' a :
  m ed = (ed', Ret a) -> bind m k ed = k a ed'.
Proof. intro H. unfold bind. now rewrite H. Qed.

Lemma bind_raise {A B} (m : M A) (k : A -> M B) ed ed' e :
  m ed = (ed', Raise e) -> bind m k ed = (ed', Raise e).
Proof. intro H. unfold bind. now rewrite H. Qed.

Lemma write_slot_outside i c ed :
  (length (tape ed) <= i)%nat -> write_slot (Z.of_nat i) c ed = (ed, Raise IndexError).
Proof.
  intro H. unfold write_slot, bind, get, lift, modify, Py.setitem.
  rewrite index_outside by (unfold Py.len; lia). reflexivity.
Qed.

Lemma type_symbol_overwrite_raise ch ed :
  mode ed = overwrite -> tape_len ed <= head ed ->
  type_symbol ch ed = (ed, Raise IndexError).
Proof.
  intros Hm H. unfold type_symbol, write_slot, bind, get, lift, modify, Py.setitem.
  rewrite Hm. simpl. rewrite index_outside by exact H. reflexivity.
Qed.

Lemma combine_app {A B} (a a' : list A) (b b' : list B) :
  length a = length b -> combine (a ++ a') (b ++ b') = combine a b ++ combine a' b'.
Proof.
  revert b. induction a as [|x a IH]; intros [|y b] H; simpl in *;
    try discriminate; [reflexivity|].
  f_equal. apply IH. now inversion H.
Qed.

(** X24: in overwrite mode, with the head on the tape or just past it, a
    text that runs past the end is written up to the last slot and then
    [type_text] raises IndexError: the head is left just past the tape, the
    checkpoint has been pushed and the redo stack has not been cleared. *)
Theorem typing_overwrite_overflow (text : string) (ed : TuringEditor) :
  mode ed = overwrite -> 0 <= head ed <= tape_len ed ->
  tape_len ed < head ed + Py.len (list_ascii_of_string text) ->
  type_text text ed
  = (set_head (tape_len ed)
       (set_tape
          (overwritten (tape ed) (Z.to_nat (head ed))
             (firstn (length (tape ed) - Z.to_nat (head ed))
                (list_ascii_of_string text)))
          (set_state "Typing"
             (set_undo_stack (push_bounded (triple ed) (undo_stack ed)) ed))),
     Raise IndexError).
Proof.
  intros Hm Hh Hl.
  assert (N : text <> EmptyString).
  { intro E. subst text. unfold Py.len in Hl. simpl in Hl. lia. }
  rewrite (type_text_nonempty text ed N).
  set (w := list_ascii_of_string text) in *.
  set (s0 := set_state "Typing" _).
  set (k := (length (tape ed) - Z.to_nat (head ed))%nat).
  unfold tape_len, Py.len in Hh, Hl.
  assert (Hk : (k < length w)%nat) by (unfold k; lia).
  assert (Lw : length (firstn k w) = k) by (rewrite length_firstn; lia).
  destruct (skipn k w) as [|c w2] eqn:Es.
  { apply (f_equal (@length ascii)) in Es. rewrite length_skipn in Es. simpl in Es. lia. }
  assert (Ew : w = firstn k w ++ c :: w2) by (rewrite <- Es; symmetry; apply firstn_skipn).
  assert (L1 : for_each (firstn k w) type_symbol s0
               = (set_head (head ed + Py.len (firstn k w))
                    (set_tape (overwritten (tape ed) (Z.to_nat (head ed)) (firstn k w)) s0),
                  Ret tt)).
  { apply (type_loop_overwrite_eq (firstn k w) s0 Hm (proj1 Hh)).
    unfold tape_len, Py.len. cbn [head tape s0 set_state set_undo_stack].
    rewrite Lw. unfold k. lia. }
  rewrite (bind_ret _ _ _ s0 tt eq_refl).
  apply bind_raise.
  rewrite Ew at 1. rewrite for_each_app, (bind_ret _ _ _ _ _ L1).
  cbn [for_each]. apply bind_raise.
  rewrite type_symbol_overwrite_raise.
  - f_equal. unfold tape_len, Py.len. rewrite Lw. unfold k.
    replace (head ed + Z.of_nat (length (tape ed) - Z.to_nat (head ed)))
      with (Z.of_nat (length (tape ed))) by lia.
    reflexivity.
  - exact Hm.
  - unfold tape_len, Py.len. cbn [head tape set_head set_tape].
    rewrite length_overwritten by (rewrite Lw; unfold k; lia).
    rewrite Lw. unfold k. lia.
Qed.

Lemma typing_overwrite_overflow_witness :
  (mode ed_over = overwrite /\ 0 <= head ed_over <= tape_len ed_over /\
   tape_len ed_over < head ed_over + Py.len (list_ascii_of_string "abcdefg")) /\
  type_text "abcdefg" ed_over
  = (set_head (tape_len ed_over)
       (set_tape
          (overwritten (tape ed_over) (Z.to_nat (head ed_over))
             (firstn (length (tape ed_over) - Z.to_nat (head ed_over))
                (list_ascii_of_string "abcdefg")))
          (set_state "Typing"
             (set_undo_stack (push_bounded (triple ed_over) (undo_stack ed_over))
                ed_over))),
     Raise IndexError).
Proof.
  assert (Hm : mode ed_over = overwrite) by reflexivity.
  assert (Hh : 0 <= head ed_over <= tape_len ed_over) by (vm_compute; split; discriminate).
  assert (Hl : tape_len ed_over < head ed_over + Py.len (list_ascii_of_string "abcdefg"))
    by (vm_compute; reflexivity).
  split; [repeat split; try assumption; apply Hh|].
  exact (typing_overwrite_overflow "abcdefg" ed_over Hm Hh Hl).
Defined.

(** X25: when the replaced text is longer than the tape, [replace_text]
    fills the whole tape with the beginning of the replaced text and then
    raises IndexError; the checkpoint has been pushed, so an undo still
    brings the old tape back. *)
Theorem replacing_overflow (old new : string) (ed : TuringEditor) :
  tape_len ed < Py.len (Py.replace (get_text ed)
                          (list_ascii_of_string old) (list_ascii_of_string new)) ->
  replace_text old new ed
  = (set_tape
       (firstn (length (tape ed))
          (Py.replace (get_text ed)
             (list_ascii_of_string old) (list_ascii_of_string new)))
       (set_undo_stack (push_bounded (triple ed) (undo_stack ed)) ed),
     Raise IndexError).
Proof.
  intro Hl. unfold replace_text. rewrite bind_save_state.
  set (ed1 := set_undo_stack _ ed).
  unfold bind at 1. unfold get at 1.
  change (get_text ed1) with (get_text ed).
  set (text := Py.replace _ _ _) in *.
  set (n := length (tape ed)).
  unfold tape_len, Py.len in Hl. fold n in Hl.
  assert (Lw : length (firstn n text) = n) by (rewrite length_firstn; lia).
  destruct (skipn n text) as [|c w2] eqn:Es.
  { apply (f_equal (@length ascii)) in Es. rewrite length_skipn in Es. simpl in Es. lia. }
  assert (Ew : text = firstn n text ++ c :: w2)
    by (rewrite <- Es; symmetry; apply firstn_skipn).
  assert (Ee : Py.enumerate text
               = combine (map Z.of_nat (seq 0 (length (firstn n text)))) (firstn n text)
                 ++ (Z.of_nat n, c)
                    :: combine (map Z.of_nat (seq (S n) (length w2))) w2).
  { unfold Py.enumerate. rewrite Ew at 1 2. rewrite length_app. simpl length.
    rewrite seq_app, map_app, combine_app by (now rewrite length_map, length_seq).
    rewrite Lw. reflexivity. }
  rewrite Ee. apply bind_raise.
  rewrite for_each_app.
  rewrite (bind_ret _ _ _ _ _
             (write_loop_eq (firstn n text) 0 ed1
                ltac:(change (tape ed1) with (tape ed); fold n; lia))).
  cbn [for_each fst snd]. apply bind_raise.
  rewrite write_slot_outside.
  - f_equal. change (tape ed1) with (tape ed). unfold overwritten.
    simpl firstn. simpl app. rewrite Lw.
    rewrite skipn_all2 by (fold n; lia).
    rewrite app_nil_r. reflexivity.
  - cbn [tape set_tape]. change (tape ed1) with (tape ed).
    rewrite length_overwritten by (rewrite Lw; fold n; lia). fold n. lia.
Qed.

Lemma replacing_overflow_witness :
  tape_len (after (CType "ab") (init 3))
  < Py.len (Py.replace (get_text (after (CType "ab") (init 3)))
              (list_ascii_of_string "a") (list_ascii_of_string "xyz")) /\
  replace_text "a" "xyz" (after (CType "ab") (init 3))
  = (set_tape
       (firstn (length (tape (after (CType "ab") (init 3))))
          (Py.replace (get_text (after (CType "ab") (init 3)))
             (list_ascii_of_string "a") (list_ascii_of_string "xyz")))
       (set_undo_stack
          (push_bounded (triple (after (CType "ab") (init 3)))
             (undo_stack (after (CType "ab") (init 3))))
          (after (CType "ab") (init 3))),
     Raise IndexError).
Proof.
  assert (H : tape_len (after (CType "ab") (init 3))
              < Py.len (Py.replace (get_text (after (CType "ab") (init 3)))
                          (list_ascii_of_string "a") (list_ascii_of_string "xyz")))
    by (vm_compute; reflexivity).
  split; [exact H | exact (replacing_overflow "a" "xyz" _ H)].
Defined.

(** ** Clearing *)

Lemma rstrip_repeat c k : Py.rstrip (repeat c k) c = [].
Proof. exact (rstrip_app_repeat [] c k). Qed.

(** X26: after [clear_all] every slot is blank, the tape has its old
    length, the head is at 0, the text is empty and [word_count] prints
    zero words and zero characters. *)
Theorem clearing_empties (ed : TuringEditor) :
  snd (clear_all ed) = Ret Done /\
  tape (after CClear ed) = repeat blank (length (tape ed)) /\
  head (after CClear ed) = 0 /\
  get_text (after CClear ed) = [] /\
  word_count (after CClear ed) = (0, 0).
Proof.
  assert (T : tape (after CClear ed) = repeat blank (length (tape ed))).
  { unfold after. cbn [exec]. unfold clear_all. rewrite bind_save_state.
    cbn. unfold Py.times, Py.len. now rewrite Nat2Z.id. }
  assert (G : get_text (after CClear ed) = []).
  { rewrite get_text_rstrip, T. apply rstrip_repeat. }
  split; [unfold clear_all; now rewrite bind_save_state|].
  split; [exact T|].
  split; [unfold after; cbn [exec]; unfold clear_all; now rewrite bind_save_state|].
  split; [exact G|].
  unfold word_count. now rewrite G.
Qed.
